(** * mock-server (Go): the configuration-driven HTTP mock server

    A shallow embedding of [restapi/go-mock-server/mock_server.go].

    The program is sixty-odd lines of glue around the Go standard library,
    so the embedding has two layers:

    - the program itself ([ApiFormat], [ResponseFormat], [check], the handler
      closure of [main], and [main]), transcribed statement by statement;
    - the part of the standard library the program calls, modelled at the
      level of its documented contract ([http.Header.Set],
      [ResponseWriter.WriteHeader], [json.Encoder.Encode], [time.Sleep],
      [http.HandleFunc], [ServeMux] dispatch, [fmt.Sprintf], [net.Listen]).

    Values of type [interface{}] and the functions of [fmt] and
    [encoding/json] that render them are kept behind the class [Dyn]. *)

From Stdlib Require Import ZArith String Ascii List Lia.
From Stdlib Require Import DecimalString HexadecimalString.
From stdpp Require Import gmap strings list fin_maps.

Local Open Scope string_scope.
Local Open Scope list_scope.
Local Open Scope Z_scope.

(** ** Machine integers

    [int] and [time.Duration] are 64-bit two's complement on the platforms
    the server is built for. *)

Definition wrap64 (z : Z) : Z := (z + 2 ^ 63) mod 2 ^ 64 - 2 ^ 63.

Definition int64_min : Z := - 2 ^ 63.
Definition int64_max : Z := 2 ^ 63 - 1.

(** ** Dynamic values

    [interface{}] values as [encoding/json] produces them, with the two
    library functions the handler applies to them. [json_Marshal] is the
    compact encoding of a [map[string]interface{}]; it cannot fail on a value
    that came out of the decoder. *)

Class Dyn : Type := {
  any : Type;
  fmt_Sprint : any → string;
  json_Marshal : gmap string any → string;
}.

(** ** log/slog *)

Inductive Level : Type := LevelDebug | LevelInfo | LevelError.

Inductive Attr : Type :=
  | AString (s : string)
  | AInt (z : Z)
  | APointer (p : N)
  | AError (e : string).

Record LogRecord : Type := {
  rec_level : Level;
  rec_msg : string;
  rec_attrs : list (string * Attr);
}.

(** The default logger: a minimum level and the records it has emitted. *)
Record Logger : Type := {
  min_level : Level;
  records : list LogRecord;
}.

Definition level_rank (l : Level) : Z :=
  match l with LevelDebug => -4 | LevelInfo => 0 | LevelError => 8 end.

Definition slog_emit (l : Level) (msg : string) (attrs : list (string * Attr))
    (lg : Logger) : Logger :=
  if level_rank (min_level lg) <=? level_rank l
  then {| min_level := min_level lg;
          records := records lg ++ [{| rec_level := l; rec_msg := msg; rec_attrs := attrs |}] |}
  else lg.

Definition slog_SetLogLoggerLevel (l : Level) (lg : Logger) : Logger :=
  {| min_level := l; records := records lg |}.

Definition default_logger : Logger := {| min_level := LevelInfo; records := [] |}.

(** ** net/textproto: canonical header keys *)

Definition is_lower (c : ascii) : bool :=
  (97 <=? nat_of_ascii c)%nat && (nat_of_ascii c <=? 122)%nat.
Definition is_upper (c : ascii) : bool :=
  (65 <=? nat_of_ascii c)%nat && (nat_of_ascii c <=? 90)%nat.
Definition is_digit (c : ascii) : bool :=
  (48 <=? nat_of_ascii c)%nat && (nat_of_ascii c <=? 57)%nat.

Definition to_upper (c : ascii) : ascii := ascii_of_nat (nat_of_ascii c - 32).
Definition to_lower (c : ascii) : ascii := ascii_of_nat (nat_of_ascii c + 32).

(** The token bytes of RFC 7230, [validHeaderFieldByte]. *)
Definition validHeaderFieldByte (c : ascii) : bool :=
  is_lower c || is_upper c || is_digit c
  || existsb (Ascii.eqb c) (list_ascii_of_string "!#$%&'*+-.^_`|~").

Fixpoint all_bytes (p : ascii → bool) (s : string) : bool :=
  match s with
  | EmptyString => true
  | String c s' => p c && all_bytes p s'
  end.

(** First letter and every letter after a dash in upper case, the rest in
    lower case. *)
Fixpoint canon_loop (upper : bool) (s : string) : string :=
  match s with
  | EmptyString => EmptyString
  | String c s' =>
      let c' := if upper && is_lower c then to_upper c
                else if negb upper && is_upper c then to_lower c
                else c in
      String c' (canon_loop (Ascii.eqb c' "-") s')
  end.

(** A key holding a byte that is no token byte is returned unchanged. *)
Definition CanonicalMIMEHeaderKey (s : string) : string :=
  if all_bytes validHeaderFieldByte s then canon_loop true s else s.

(** ** One request being served

    What a handler does to its [http.ResponseWriter], to the clock and to
    the logger. [calls] lists the calls that returned, in program order;
    [Header] is the map behind [w.Header()]. This is the handler's side of
    the interface. What the transport makes of the calls on the wire
    (interim 1xx responses, bodies withheld from 204, 304 and HEAD
    replies, Content-Length accounting, the spelling of header lines) is
    on the other side and is not modelled. *)

Inductive Call : Type :=
  | CallSet (key value : string)
  | CallWriteHeader (code : Z)
  | CallWrite (p : string)
  | CallSleep (d : Z).

Record Exchange : Type := {
  Header : gmap string (list string);
  calls : list Call;
  clock : Z;
  logger : Logger;
}.

Definition new_exchange (lg : Logger) : Exchange :=
  {| Header := ∅; calls := []; clock := 0; logger := lg |}.

(** State with panics. *)
Inductive Result (A : Type) : Type :=
  | Ok (a : A) (x : Exchange)
  | Panic (msg : string) (x : Exchange).
Arguments Ok {A} a x.
Arguments Panic {A} msg x.

Definition M (A : Type) : Type := Exchange → Result A.

#[global] Instance M_ret : MRet M := λ A a x, Ok a x.

#[global] Instance M_bind : MBind M := λ A B k m x,
  match m x with
  | Ok a x' => k a x'
  | Panic msg x' => Panic msg x'
  end.

Definition panic {A} (msg : string) : M A := λ x, Panic msg x.

Definition final {A} (r : Result A) : Exchange :=
  match r with Ok _ x => x | Panic _ x => x end.

Definition panicked {A} (r : Result A) : bool :=
  match r with Ok _ _ => false | Panic _ _ => true end.

Definition record_call (c : Call) (x : Exchange) : Exchange :=
  {| Header := Header x; calls := calls x ++ [c]; clock := clock x; logger := logger x |}.

(** ** The data model (source lines 13-24) *)

Section Model.
Context `{Dyn}.

(** A nil [Headers] map and an empty one behave alike under [range]; a nil
    [Body] is distinguished from an empty one by the handler's test. *)
Record ResponseFormat : Type := {
  Status : Z;
  Headers : gmap string any;
  Body : option (gmap string any);
}.

Record ApiFormat : Type := {
  Url : string;
  Method : string;
  Response : ResponseFormat;
  Delay : Z;
}.

(** ** Rendering of integers ([%d], [%v] on an int) and of pointers ([%v]) *)

Definition itoa (z : Z) : string :=
  DecimalString.NilZero.string_of_int (Z.to_int z).

Definition hex (n : N) : string :=
  HexadecimalString.NilZero.string_of_uint (N.to_hex_uint n).

(** ** The [http.ResponseWriter] interface, [encoding/json], [time], [slog]
    as a handler sees them *)

(** [w.Header().Set(key, value)]: the key is canonicalised and the entry
    replaced by the single value. *)
Definition Header_Set (key value : string) : M unit := λ x,
  Ok () {| Header := <[CanonicalMIMEHeaderKey key := [value]]> (Header x);
           calls := calls x ++ [CallSet key value];
           clock := clock x; logger := logger x |}.

(** [h.Get(key)]: the first value under the canonical form of [key]. *)
Definition Header_Get (h : gmap string (list string)) (key : string) : option string :=
  h !! CanonicalMIMEHeaderKey key ≫= head.

(** [w.WriteHeader(code)]: "the provided code must be a valid HTTP 1xx-5xx
    status code"; every implementation in net/http enforces three digits
    ([checkWriteHeaderCode]) and panics otherwise, before writing anything. *)
Definition WriteHeader (code : Z) : M unit := λ x,
  if (code <? 100) || (999 <? code)
  then Panic ("invalid WriteHeader code " +:+ itoa code) x
  else Ok () (record_call (CallWriteHeader code) x).

(** [w.Write(p)]. *)
Definition Write (p : string) : M unit := λ x,
  Ok () (record_call (CallWrite p) x).

(** [json.NewEncoder(w).Encode(v)]: "writes the JSON encoding of v to the
    stream, followed by a newline character". The handler drops the error
    it returns. *)
Definition newline : string := String (ascii_of_nat 10) EmptyString.

Definition json_Encoder_Encode (v : gmap string any) : M unit :=
  Write (json_Marshal v +:+ newline).

(** [time.Sleep(d)]: "a negative or zero duration causes Sleep to return
    immediately". [clock] accumulates the nanoseconds spent suspended. *)
Definition time_Sleep (d : Z) : M unit := λ x,
  Ok () {| Header := Header x; calls := calls x ++ [CallSleep d];
           clock := clock x + Z.max 0 d; logger := logger x |}.

Definition time_Millisecond : Z := 1000000.

(** [time.Duration(n) * time.Millisecond], in int64 arithmetic. *)
Definition milliseconds (n : Z) : Z := wrap64 (wrap64 n * time_Millisecond).

Definition slog_Debug (msg : string) (attrs : list (string * Attr)) : M unit := λ x,
  Ok () {| Header := Header x; calls := calls x; clock := clock x;
           logger := slog_emit LevelDebug msg attrs (logger x) |}.

(** [for _, a := range l { f a }] over the sequence [l] the runtime picked. *)
Fixpoint for_range {A} (f : A → M unit) (l : list A) : M unit :=
  match l with
  | [] => mret ()
  | a :: l' => f a ;; for_range f l'
  end.

(** ** The handler closure (source lines 50-63)

    The closure captures [api] and ignores the request. Go leaves the
    iteration order of a map unspecified: [order] is the sequence in which
    this run of [range api.Response.Headers] yields the entries, a
    permutation of the map's entries ([ranges]). *)

Definition ranges (m : gmap string any) (order : list (string * any)) : Prop :=
  order ≡ₚ map_to_list m.

Definition handler (api : ApiFormat) (order : list (string * any)) : M unit :=
  for_range (λ kv, Header_Set kv.1 (fmt_Sprint kv.2)) order ;;
  WriteHeader (Status (Response api)) ;;
  slog_Debug "API request handled"
    [("method", AString (Method api)); ("url", AString (Url api));
     ("status", AInt (Status (Response api)))] ;;
  match Body (Response api) with
  | Some body => json_Encoder_Encode body
  | None => mret ()
  end ;;
  if 0 <? Delay api
  then time_Sleep (milliseconds (Delay api))
  else mret ().

(** What the handler handed to [w]: the status codes, the body bytes and
    the time spent suspended. *)
Definition codes_written (x : Exchange) : list Z :=
  omap (λ c, match c with CallWriteHeader code => Some code | _ => None end) (calls x).

Definition writes (x : Exchange) : list string :=
  omap (λ c, match c with CallWrite p => Some p | _ => None end) (calls x).

Definition body_written (x : Exchange) : string :=
  foldr String.append EmptyString (writes x).

Definition sleeps (x : Exchange) : list Z :=
  omap (λ c, match c with CallSleep d => Some d | _ => None end) (calls x).

(** ** net/http: [ServeMux] (Go 1.22 patterns)

    [DefaultServeMux] as a sequence of registrations: the pattern string
    handed to [http.HandleFunc] and the [api] its closure captured.

    Patterns are ["METHOD /path"]. The model is exact for literal routes: a
    method that is an HTTP token, and a clean path without wildcard or
    escape that does not end in a slash ([literal_route]). On those, two
    patterns conflict exactly when they are the same string, a pattern
    matches a request of its method and path, and a [GET] pattern also
    matches [HEAD]. *)

Abbreviation ServeMux := (list (string * ApiFormat)).

Definition patterns (mux : ServeMux) : list string := mux.*1.

(** [http.HandleFunc(pattern, handler)]: "if the given pattern conflicts
    with one that is already registered, HandleFunc panics". *)
Definition http_HandleFunc (pattern : string) (api : ApiFormat) (mux : ServeMux)
    : string + ServeMux :=
  if decide (pattern ∈ patterns mux)
  then inl ("pattern " +:+ pattern +:+ " conflicts with pattern " +:+ pattern)
  else inr (mux ++ [(pattern, api)]).

Record Request : Type := {
  req_method : string;
  req_path : string;
}.

Fixpoint contains_byte (c : ascii) (s : string) : bool :=
  match s with
  | EmptyString => false
  | String c' s' => Ascii.eqb c c' || contains_byte c s'
  end.

(** The pieces of [s] between slashes, [cur] being the piece in progress. *)
Fixpoint split_slash (cur : string) (s : string) : list string :=
  match s with
  | EmptyString => [cur]
  | String c s' =>
      if Ascii.eqb c "/" then cur :: split_slash EmptyString s'
      else split_slash (cur +:+ String c EmptyString) s'
  end.

(** The segments of a path, after its leading slash; [None] when the path
    does not start with one. *)
Definition segments (path : string) : option (list string) :=
  match path with
  | String "/" rest => Some (split_slash EmptyString rest)
  | _ => None
  end.

Definition plain_segment (seg : string) : bool :=
  negb (String.eqb seg EmptyString) && negb (String.eqb seg ".") && negb (String.eqb seg "..")
  && negb (contains_byte "{" seg) && negb (contains_byte "%" seg).

(** A clean path of literal segments: what a request carries after
    cleaning, and what a literal pattern spells out. *)
Definition plain_path (path : string) : bool :=
  match segments path with
  | Some segs => forallb plain_segment segs
  | None => false
  end.

Definition validMethod (m : string) : bool :=
  negb (String.eqb m EmptyString) && all_bytes validHeaderFieldByte m.

Definition literal_route (api : ApiFormat) : bool :=
  validMethod (Method api) && plain_path (Url api).

(** [parsePattern]: the method is what precedes the first space or tab,
    the rest, with leading spaces and tabs dropped, is host and path; a
    pattern without space or tab has no method. *)
Definition is_blank (c : ascii) : bool :=
  Ascii.eqb c " " || (nat_of_ascii c =? 9)%nat.

Fixpoint cut_at_blank (s : string) : option (string * string) :=
  match s with
  | EmptyString => None
  | String c s' =>
      if is_blank c then Some (EmptyString, s')
      else match cut_at_blank s' with
           | Some (m, rest) => Some (String c m, rest)
           | None => None
           end
  end.

Fixpoint trim_left (s : string) : string :=
  match s with
  | String c s' => if is_blank c then trim_left s' else s
  | EmptyString => EmptyString
  end.

Definition parsePattern (s : string) : string * string :=
  match cut_at_blank s with
  | Some (m, rest) => (m, trim_left rest)
  | None => (EmptyString, s)
  end.

Definition pattern_method (e : string * ApiFormat) : string := (parsePattern e.1).1.
Definition pattern_path (e : string * ApiFormat) : string := (parsePattern e.1).2.

(** A pattern with method [pm] serves a request with method [rm]. *)
Definition method_matches (pm rm : string) : bool :=
  String.eqb pm rm || (String.eqb pm "GET" && String.eqb rm "HEAD").

Inductive Route : Type :=
  | RouteHandler (api : ApiFormat)
  | RouteMethodNotAllowed (allow : list string)
  | RouteNotFound.

Fixpoint insert_sorted (s : string) (l : list string) : list string :=
  match l with
  | [] => [s]
  | t :: l' =>
      match String.compare s t with
      | Lt => s :: l
      | Eq => l
      | Gt => t :: insert_sorted s l'
      end
  end.

(** [matchingMethods]: the methods under which the path is registered,
    with [HEAD] wherever [GET] is, sorted. *)
Definition matchingMethods (mux : ServeMux) (path : string) : list string :=
  let ms := pattern_method <$> filter (λ e, pattern_path e = path) mux in
  let ms := if decide ("GET" ∈ ms) then "HEAD" :: ms else ms in
  foldr insert_sorted [] ms.

(** [findHandler]: the most specific matching pattern wins, so a pattern
    of the request's own method comes before [GET] standing in for
    [HEAD]; with no match, 405 if the path is registered under another
    method, 404 otherwise. *)
Definition findHandler (mux : ServeMux) (r : Request) : Route :=
  let here := filter (λ e, pattern_path e = req_path r) mux in
  match find (λ e, String.eqb (pattern_method e) (req_method r)) here with
  | Some e => RouteHandler e.2
  | None =>
      match find (λ e, method_matches (pattern_method e) (req_method r)) here with
      | Some e => RouteHandler e.2
      | None =>
          match matchingMethods mux (req_path r) with
          | [] => RouteNotFound
          | allow => RouteMethodNotAllowed allow
          end
      end
  end.

Fixpoint join (sep : string) (l : list string) : string :=
  match l with
  | [] => EmptyString
  | [s] => s
  | s :: l' => s +:+ sep +:+ join sep l'
  end.

(** [http.Error(w, error, code)]. *)
Definition http_Error (error : string) (code : Z) : M unit :=
  Header_Set "Content-Type" "text/plain; charset=utf-8" ;;
  Header_Set "X-Content-Type-Options" "nosniff" ;;
  WriteHeader code ;;
  Write (error +:+ newline).

Definition StatusNotFound : Z := 404.
Definition StatusMethodNotAllowed : Z := 405.

(** [mux.ServeHTTP(w, r)]. [order] is the iteration order the runtime
    picks for each header map. *)
Definition ServeHTTP (mux : ServeMux) (order : gmap string any → list (string * any))
    (r : Request) : M unit :=
  match findHandler mux r with
  | RouteHandler api => handler api (order (Headers (Response api)))
  | RouteMethodNotAllowed allow =>
      Header_Set "Allow" (join ", " allow) ;;
      http_Error "Method Not Allowed" StatusMethodNotAllowed
  | RouteNotFound => http_Error "404 page not found" StatusNotFound
  end.

(** ** fmt and net, as [main] uses them *)

(** [fmt.Sprintf(":%s", p)] for [p] of type [*int]: the verb [%s] does not
    apply to a pointer, and fmt prints the bad-verb form: [%!s], then in
    parentheses the operand's type [*int], an equals sign and the pointer's
    value in hexadecimal. *)
Definition Sprintf_colon_s_ptr (p : N) : string :=
  ":" +:+ "%!s(" +:+ "*int=0x" +:+ hex p +:+ ")".

(** The text after the last colon of an address. *)
Fixpoint port_text (addr : string) : option string :=
  match addr with
  | EmptyString => None
  | String c rest =>
      match port_text rest with
      | Some p => Some p
      | None => if Ascii.eqb c ":" then Some rest else None
      end
  end.

Fixpoint digits_value (acc : Z) (s : string) : option Z :=
  match s with
  | EmptyString => Some acc
  | String c s' =>
      if is_digit c
      then digits_value (10 * acc + Z.of_nat (nat_of_ascii c - 48)) s'
      else None
  end.

(** A numeric port between 0 and 65535. (Service names, which are words
    of letters, digits and dashes looked up in the services database, are
    not numerals and are left out.) *)
Definition parse_port (s : string) : option Z :=
  match s with
  | EmptyString => None
  | _ => match digits_value 0 s with
         | Some v => if v <=? 65535 then Some v else None
         | None => None
         end
  end.

(** [net.Listen("tcp", addr)]: the port the listener binds, if the address
    names one. *)
Definition net_Listen (addr : string) : option Z :=
  match port_text addr with
  | Some p => parse_port p
  | None => None
  end.

(** ** [main] (source lines 33-68) *)

(** What the environment answers: the file system (the bytes and the error
    of [os.ReadFile]), the JSON decoder (the slice it leaves in [apis] and
    the error it returns), and the address of the variable [flag.Int]
    allocates. *)
Record World : Type := {
  os_ReadFile : string → string * option string;
  json_Unmarshal : string → list ApiFormat * option string;
  port_addr : N;
}.

(** The flags after [flag.Parse()]. *)
Record Flags : Type := {
  debug : bool;
  mock_data : string;
  port : Z;
}.

Record Process : Type := {
  DefaultServeMux : ServeMux;
  slog_default : Logger;
}.

Inductive Exit : Type :=
  | ExitPanic (msg : string)
  | ExitReturn (listen_error : string)
  | Serving (bound_port : Z).

(** How a run of [main] ends: the way it exits, the process state then,
    and the address given to [http.ListenAndServe] if that call was
    reached. *)
Record Run : Type := {
  exit : Exit;
  proc : Process;
  listen_addr : option string;
}.

(** [check(e)] (source lines 26-31): with an error, log it and panic;
    [Some run] is the run that ends there, [None] means go on. *)
Definition check (e : option string) (p : Process) : option Run :=
  match e with
  | Some err =>
      Some {| exit := ExitPanic err;
              proc := {| DefaultServeMux := DefaultServeMux p;
                         slog_default := slog_emit LevelError "Error occurred"
                                           [("error", AError err)] (slog_default p) |};
              listen_addr := None |}
  | None => None
  end.

(** The pattern [api.Method+" "+api.Url] under which an endpoint is
    registered, and the registration it makes. *)
Definition pattern_of (api : ApiFormat) : string := Method api +:+ " " +:+ Url api.

Definition entry (api : ApiFormat) : string * ApiFormat := (pattern_of api, api).

(** The registration loop (source lines 48-65); [Some msg] when
    [http.HandleFunc] panicked. *)
Fixpoint register (apis : list ApiFormat) (p : Process) : Process * option string :=
  match apis with
  | [] => (p, None)
  | api :: rest =>
      match http_HandleFunc (pattern_of api) api (DefaultServeMux p) with
      | inl msg => (p, Some msg)
      | inr mux =>
          register rest
            {| DefaultServeMux := mux;
               slog_default := slog_emit LevelInfo "Registered endpoint"
                                 [("method", AString (Method api)); ("url", AString (Url api))]
                                 (slog_default p) |}
      end
  end.

(** [http.ListenAndServe(addr, nil)]: serve [DefaultServeMux] on the port
    of [addr], or return the listener's error; [main] then returns. *)
Definition http_ListenAndServe (addr : string) (p : Process) : Run :=
  {| exit := match net_Listen addr with
             | Some n => Serving n
             | None => ExitReturn ("listen tcp: address " +:+ addr)
             end;
     proc := p;
     listen_addr := Some addr |}.

(** The process before the loop: nothing registered yet. *)
Definition initial_process (lg : Logger) : Process :=
  {| DefaultServeMux := []; slog_default := lg |}.

Definition main (w : World) (fl : Flags) : Run :=
  let lg := if debug fl then slog_SetLogLoggerLevel LevelDebug default_logger
            else default_logger in
  let p0 := initial_process lg in
  let (file, err) := os_ReadFile w (mock_data fl) in
  match check err p0 with
  | Some run => run
  | None =>
      (* json.Unmarshal(file, &apis): the returned error is not looked at *)
      let apis := (json_Unmarshal w file).1 in
      match register apis p0 with
      | (p, Some msg) => {| exit := ExitPanic msg; proc := p; listen_addr := None |}
      | (p, None) =>
          let p' := {| DefaultServeMux := DefaultServeMux p;
                       slog_default := slog_emit LevelInfo "Starting server"
                                         [("port", APointer (port_addr w))]
                                         (slog_default p) |} in
          http_ListenAndServe (Sprintf_colon_s_ptr (port_addr w)) p'
      end
  end.

End Model.

Abbreviation ServeMux := (list (string * ApiFormat)).

(** ** Vocabulary for the properties *)

Section Statements.
Context `{Dyn}.

(** The calls the handler makes for its headers, status, body and delay. *)
Definition set_calls (order : list (string * any)) : list Call :=
  (λ kv, CallSet kv.1 (fmt_Sprint kv.2)) <$> order.

Definition body_calls (api : ApiFormat) : list Call :=
  match Body (Response api) with
  | Some body => [CallWrite (json_Marshal body +:+ newline)]
  | None => []
  end.

Definition sleep_calls (api : ApiFormat) : list Call :=
  if 0 <? Delay api then [CallSleep (milliseconds (Delay api))] else [].

(** The header map after the loop over [order]. *)
Definition set_headers (order : list (string * any)) (h : gmap string (list string))
    : gmap string (list string) :=
  foldl (λ h kv, <[CanonicalMIMEHeaderKey kv.1 := [fmt_Sprint kv.2]]> h) h order.

Definition valid_code (code : Z) : Prop := 100 ≤ code ≤ 999.

(** The exchange a handler leaves behind when it starts on a fresh
    response with logger [lg]. *)
Definition handler_run (api : ApiFormat) (order : list (string * any)) (lg : Logger)
    : Exchange :=
  final (handler api order (new_exchange lg)).

(** Headers first, then the status, then the body exactly when there is
    one (then the delay). *)
Definition steps_in_order (api : ApiFormat) : Prop :=
  ∀ order lg, ranges (Headers (Response api)) order →
    ∃ sets, sets ≡ₚ set_calls (map_to_list (Headers (Response api)))
      ∧ calls (handler_run api order lg)
        = sets ++ [CallWriteHeader (Status (Response api))]
            ++ body_calls api ++ sleep_calls api.

(** The handler's last step is a suspension of [Delay api] milliseconds,
    after the status and the body, and it suspends nowhere else. *)
Definition sleeps_last (api : ApiFormat) : Prop :=
  ∀ order lg, ranges (Headers (Response api)) order →
    ∃ pre, calls (handler_run api order lg)
           = pre ++ [CallSleep (Delay api * time_Millisecond)]
      ∧ CallWriteHeader (Status (Response api)) ∈ pre
      ∧ (∀ body, Body (Response api) = Some body →
           CallWrite (json_Marshal body +:+ newline) ∈ pre)
      ∧ (∀ d, CallSleep d ∉ pre)
      ∧ clock (handler_run api order lg) = Delay api * time_Millisecond.



(** The last definition of [apis] with the key of [api]. *)
Definition last_with_key (apis : list ApiFormat) (api : ApiFormat) : option ApiFormat :=
  last (filter (λ a, Method a = Method api ∧ Url a = Url api) apis).

(** Registration of [apis] completes, and a request for the key of any of
    them is served by the last definition with that key. *)
Definition last_registration_wins (apis : list ApiFormat) : Prop :=
  ∀ lg, ∃ p, register apis (initial_process lg) = (p, None)
    ∧ ∀ api, api ∈ apis →
        ∃ winner, last_with_key apis api = Some winner
          ∧ findHandler (DefaultServeMux p)
              {| req_method := Method api; req_path := Url api |}
            = RouteHandler winner.

(** The log records an exchange added to those of [lg]: the only events
    the server emits. *)
Definition emitted (lg : Logger) (x : Exchange) : list LogRecord :=
  drop (length (records lg)) (records (logger x)).

Definition named (name : string) (l : list LogRecord) : list LogRecord :=
  filter (λ rec, rec_msg rec = name) l.

(** The request is answered 404 and reported by exactly one
    [request.not_found] event carrying its method and url, and by no
    [request.started] or [request.handled] event. *)
Definition not_found_reported (mux : ServeMux) (r : Request) : Prop :=
  ∀ order lg,
    let x := final (ServeHTTP mux order r (new_exchange lg)) in
    codes_written x = [StatusNotFound]
    ∧ (∃ lvl, named "request.not_found" (emitted lg x)
              = [{| rec_level := lvl; rec_msg := "request.not_found";
                    rec_attrs := [("method", AString (req_method r));
                                  ("url", AString (req_path r))] |}])
    ∧ named "request.started" (emitted lg x) = []
    ∧ named "request.handled" (emitted lg x) = [].

(** No record of [lg] has level [l]. *)
Definition no_record_at (l : Level) (lg : Logger) : Prop :=
  ∀ rec, rec ∈ records lg → rec_level rec ≠ l.

End Statements.

(** ** A concrete instance of [Dyn]

    Flat JSON scalars: enough for the header and body values of the
    configuration files the repository ships, and for running the model.
    Numbers are the integers below 10^6 in magnitude, which [fmt.Sprint]
    and [encoding/json] both print in plain decimal. *)

Module Lit.

Inductive scalar : Type :=
  | Null
  | Bool (b : bool)
  | Str (s : string)
  | Num (z : Z).

Definition Sprint (v : scalar) : string :=
  match v with
  | Null => "<nil>"
  | Bool true => "true"
  | Bool false => "false"
  | Str s => s
  | Num z => itoa z
  end.

Definition dquote : string := String (ascii_of_nat 34) EmptyString.

Definition hex_digit (n : nat) : ascii :=
  if (n <? 10)%nat then ascii_of_nat (48 + n) else ascii_of_nat (87 + n).

(** The escapes of [encoding/json] for a byte of ASCII text. *)
Definition escape_byte (c : ascii) : string :=
  let n := nat_of_ascii c in
  if (n =? 34)%nat then String "\" dquote
  else if (n =? 92)%nat then "\\"
  else if (n =? 10)%nat then "\n"
  else if (n =? 13)%nat then "\r"
  else if (n =? 9)%nat then "\t"
  else if (n <? 32)%nat || Ascii.eqb c "<" || Ascii.eqb c ">" || Ascii.eqb c "&"
  then "\u00" +:+ String (hex_digit (n / 16)) (String (hex_digit (n mod 16)) EmptyString)
  else String c EmptyString.

Fixpoint escape (s : string) : string :=
  match s with
  | EmptyString => EmptyString
  | String c s' => escape_byte c +:+ escape s'
  end.

Definition quote (s : string) : string := dquote +:+ escape s +:+ dquote.

Definition encode_scalar (v : scalar) : string :=
  match v with
  | Null => "null"
  | Bool true => "true"
  | Bool false => "false"
  | Str s => quote s
  | Num z => itoa z
  end.

Fixpoint insert_by_key (kv : string * scalar) (l : list (string * scalar))
    : list (string * scalar) :=
  match l with
  | [] => [kv]
  | kv' :: l' =>
      match String.compare kv.1 kv'.1 with
      | Gt => kv' :: insert_by_key kv l'
      | _ => kv :: l
      end
  end.

(** An object, its keys in sorted order. *)
Definition Marshal (m : gmap string scalar) : string :=
  "{" +:+ join "," ((λ kv, quote kv.1 +:+ ":" +:+ encode_scalar kv.2)
                      <$> foldr insert_by_key [] (map_to_list m)) +:+ "}".

(** The decoder for such objects. *)
Inductive token : Type :=
  | TLBrace | TRBrace | TColon | TComma
  | TStr (s : string)
  | TWord (s : string).

Inductive lex_state : Type :=
  | Idle
  | InStr (buf : string)
  | InEsc (buf : string)
  | InU (buf : string) (seen : list nat)
  | InWord (buf : string).

Definition is_space (c : ascii) : bool :=
  let n := nat_of_ascii c in
  (n =? 32)%nat || (n =? 9)%nat || (n =? 10)%nat || (n =? 13)%nat.

Definition is_word_byte (c : ascii) : bool :=
  is_lower c || is_digit c || Ascii.eqb c "-".

Definition hex_value (c : ascii) : option nat :=
  let n := nat_of_ascii c in
  if is_digit c then Some (n - 48)%nat
  else if (97 <=? n)%nat && (n <=? 102)%nat then Some (n - 87)%nat
  else if (65 <=? n)%nat && (n <=? 70)%nat then Some (n - 55)%nat
  else None.

Definition snoc (s : string) (c : ascii) : string := s +:+ String c EmptyString.

Definition unescape (c : ascii) : option ascii :=
  if (nat_of_ascii c =? 34)%nat then Some c
  else if Ascii.eqb c "\" then Some c
  else if Ascii.eqb c "/" then Some c
  else if Ascii.eqb c "n" then Some (ascii_of_nat 10)
  else if Ascii.eqb c "r" then Some (ascii_of_nat 13)
  else if Ascii.eqb c "t" then Some (ascii_of_nat 9)
  else if Ascii.eqb c "b" then Some (ascii_of_nat 8)
  else if Ascii.eqb c "f" then Some (ascii_of_nat 12)
  else None.

Fixpoint lex (st : lex_state) (s : string) (acc : list token) : option (list token) :=
  match s with
  | EmptyString =>
      match st with
      | Idle => Some (rev acc)
      | InWord b => Some (rev (TWord b :: acc))
      | _ => None
      end
  | String c s' =>
      match st with
      | Idle =>
          if is_space c then lex Idle s' acc
          else if Ascii.eqb c "{" then lex Idle s' (TLBrace :: acc)
          else if Ascii.eqb c "}" then lex Idle s' (TRBrace :: acc)
          else if Ascii.eqb c ":" then lex Idle s' (TColon :: acc)
          else if Ascii.eqb c "," then lex Idle s' (TComma :: acc)
          else if (nat_of_ascii c =? 34)%nat then lex (InStr EmptyString) s' acc
          else if is_word_byte c then lex (InWord (String c EmptyString)) s' acc
          else None
      | InWord b =>
          if is_word_byte c then lex (InWord (snoc b c)) s' acc
          else if is_space c then lex Idle s' (TWord b :: acc)
          else if Ascii.eqb c "}" then lex Idle s' (TRBrace :: TWord b :: acc)
          else if Ascii.eqb c "," then lex Idle s' (TComma :: TWord b :: acc)
          else None
      | InStr b =>
          if (nat_of_ascii c =? 34)%nat then lex Idle s' (TStr b :: acc)
          else if Ascii.eqb c "\" then lex (InEsc b) s' acc
          else lex (InStr (snoc b c)) s' acc
      | InEsc b =>
          if Ascii.eqb c "u" then lex (InU b []) s' acc
          else match unescape c with
               | Some c' => lex (InStr (snoc b c')) s' acc
               | None => None
               end
      | InU b seen =>
          match hex_value c, seen with
          | Some d, [d1; d2; d3] =>
              let v := (((d1 * 16 + d2) * 16 + d3) * 16 + d)%nat in
              if (v <? 128)%nat then lex (InStr (snoc b (ascii_of_nat v))) s' acc
              else None
          | Some d, _ => lex (InU b (seen ++ [d])) s' acc
          | None, _ => None
          end
      end
  end.

Definition scalar_of_word (w : string) : option scalar :=
  if String.eqb w "null" then Some Null
  else if String.eqb w "true" then Some (Bool true)
  else if String.eqb w "false" then Some (Bool false)
  else match w with
       | String "-" ds =>
           match ds with
           | EmptyString => None
           | _ => (λ z, Num (- z)) <$> digits_value 0 ds
           end
       | EmptyString => None
       | _ => Num <$> digits_value 0 w
       end.

Definition scalar_of_token (t : token) : option scalar :=
  match t with
  | TStr s => Some (Str s)
  | TWord w => scalar_of_word w
  | _ => None
  end.

Fixpoint members (ts : list token) (m : gmap string scalar)
    : option (gmap string scalar) :=
  match ts with
  | [TStr k; TColon; t; TRBrace] =>
      v ← scalar_of_token t; Some (<[k := v]> m)
  | TStr k :: TColon :: t :: TComma :: rest =>
      v ← scalar_of_token t; members rest (<[k := v]> m)
  | _ => None
  end.

Definition Unmarshal (s : string) : option (gmap string scalar) :=
  ts ← lex Idle s [];
  match ts with
  | [TLBrace; TRBrace] => Some ∅
  | TLBrace :: ts' => members ts' ∅
  | _ => None
  end.

#[global] Instance scalar_eq_dec : EqDecision scalar.
Proof. solve_decision. Defined.

#[global] Instance dyn : Dyn :=
  {| any := scalar; fmt_Sprint := Sprint; json_Marshal := Marshal |}.

End Lit.

(** ** The Event Notifier

    The Go server has no notifier. The specification describes one, after
    the repository's Python server ([mock_server.py], with its observer
    interface and telemetry observer), which is not among the sources. *)

Module Notifier.
Section Notifier.
Context `{Dyn}.

(** Modelled from the spec: the event vocabulary of section 6, emitted by
    the missing Python server. *)
Inductive EventName : Type :=
  | server_starting | server_started | server_shutting_down | server_stopped
  | route_registered | request_started | request_handled | request_not_found.

(** Modelled from the spec: the [Event] of section 3 of the missing Python
    server: a name, free-form attributes, a success or failure
    classification. *)
Record Event : Type := {
  name : EventName;
  attributes : list (string * string);
  success : bool;
}.

(** Modelled from the spec: a call into the missing observer code either
    returns or raises ("an observer that raises on every call"). *)
Inductive Outcome (A : Type) : Type :=
  | Returns (a : A)
  | Raises (fault : string).
Arguments Returns {A} a.
Arguments Raises {A} fault.

(** Modelled from the spec: sequencing in the missing dispatcher, where a
    fault that is raised and not caught ends the dispatch. *)
Definition and_then {A B} (o : Outcome A) (k : A → Outcome B) : Outcome B :=
  match o with
  | Returns a => k a
  | Raises fault => Raises fault
  end.

(** Modelled from the spec: an observer of section 4.4, an external
    collaborator of the missing Python server that receives an event and
    may fail on it. *)
Definition Observer : Type := Event → Outcome unit.

(** Modelled from the spec: [notify(event)] of section 4.4, missing with
    the Python server. Every attached observer is called; "any error
    raised inside an observer is caught and reported (e.g., logged) by the
    Notifier, not re-raised". The result is the list of faults reported. *)
Fixpoint notify (observers : list Observer) (ev : Event) : Outcome (list string) :=
  match observers with
  | [] => Returns []
  | o :: rest =>
      let caught := match o ev with
                    | Returns _ => []
                    | Raises fault => [fault]
                    end in
      and_then (notify rest ev) (λ faults, Returns (caught ++ faults))
  end.

(** Modelled from the spec: the registry of section 4.2 of the missing
    Python server, a mapping from (method, url) to the definition, filled
    by inserts in sequence order. *)
Definition register (defs : list ApiFormat) : gmap (string * string) ApiFormat :=
  foldl (λ reg d, <[(Method d, Url d) := d]> reg) ∅ defs.

(** Modelled from the spec: the "HTTP-visible behavior (status, headers,
    body)" of section 8 for the missing dispatcher: the status codes, the
    headers and the body, or that the exchange broke off. *)
Record Visible : Type := {
  vis_codes : list Z;
  vis_headers : gmap string (list string);
  vis_body : string;
  vis_broken : bool;
}.

(** Modelled from the spec: what is visible of an exchange of the missing
    dispatcher. *)
Definition visible (r : Result unit) : Visible :=
  {| vis_codes := codes_written (final r);
     vis_headers := Header (final r);
     vis_body := body_written (final r);
     vis_broken := panicked r |}.

(** Modelled from the spec: the attributes [{method, url}] the missing
    dispatcher gives its request events. *)
Definition request_attributes (r : Request) : list (string * string) :=
  [("method", req_method r); ("url", req_path r)].

(** Modelled from the spec: [dispatch(request)] of section 4.2, missing
    with the Python server. On a miss, [request.not_found] and the
    not-found status. On a hit, [request.started], the Response Simulator
    (the handler of the Go source), and on its successful completion
    [request.handled], which is a success iff the status is below 400. The
    result is what the client sees. *)
Definition dispatch (observers : list Observer) (reg : gmap (string * string) ApiFormat)
    (order : gmap string any → list (string * any)) (r : Request) : Outcome Visible :=
  match reg !! (req_method r, req_path r) with
  | None =>
      and_then (notify observers
                  {| name := request_not_found; attributes := request_attributes r;
                     success := false |}) (λ _,
      Returns (visible (WriteHeader StatusNotFound (new_exchange default_logger))))
  | Some def =>
      and_then (notify observers
                  {| name := request_started; attributes := request_attributes r;
                     success := true |}) (λ _,
      let served := handler def (order (Headers (Response def)))
                      (new_exchange default_logger) in
      if panicked served then Returns (visible served)
      else
        and_then (notify observers
                    {| name := request_handled;
                       attributes := request_attributes r
                                     ++ [("status", itoa (Status (Response def)))];
                       success := Status (Response def) <? 400 |}) (λ _,
        Returns (visible served)))
  end.

End Notifier.

Arguments Returns {A} a.
Arguments Raises {A} fault.

(** Modelled from the spec: an observer of the missing Python server
    "that raises on every call" (section 8). *)
Definition failing : Observer := λ _, Raises "observer failed".

(** Modelled from the spec: an observer of the missing Python server that
    accepts every event. *)
Definition quiet : Observer := λ _, Returns ().

End Notifier.

(** ** Example configurations *)

Module Examples.
Import Lit.

(** The endpoint of the specification's example. *)
Definition ping : ApiFormat :=
  {| Url := "/ping"; Method := "GET";
     Response := {| Status := 200;
                    Headers := {[ "X-Test" := Str "1" ]};
                    Body := Some {[ "ok" := Bool true ]} |};
     Delay := 0 |}.

(** The same endpoint with a quarter of a second of delay. *)
Definition delayed : ApiFormat :=
  {| Url := "/ping"; Method := "GET"; Response := Response ping; Delay := 250 |}.

(** A record that leaves [status] out decodes to status 0. *)
Definition no_status : ApiFormat :=
  {| Url := "/ping"; Method := "GET";
     Response := {| Status := 0;
                    Headers := {[ "X-Test" := Str "1" ]};
                    Body := Some {[ "ok" := Bool true ]} |};
     Delay := 250 |}.

(** A delay whose nanoseconds no longer fit in 64 bits. *)
Definition slow : ApiFormat :=
  {| Url := "/ping"; Method := "GET"; Response := Response ping;
     Delay := 9223372036855 |}.

(** A negative delay. *)
Definition hasty : ApiFormat :=
  {| Url := "/ping"; Method := "GET"; Response := Response ping; Delay := -5 |}.


(** A second definition for [ping]'s key. *)
Definition ping_again : ApiFormat :=
  {| Url := "/ping"; Method := "GET";
     Response := {| Status := 201; Headers := ∅; Body := None |};
     Delay := 0 |}.

(** A world whose configuration file decodes to [apis], the decoder
    returning [err]. *)
Definition world (apis : list ApiFormat) (err : option string) : World :=
  {| os_ReadFile := λ _, ("(configuration bytes)", None);
     json_Unmarshal := λ _, (apis, err);
     port_addr := 824633811096 |}.

Definition flags : Flags :=
  {| debug := false; mock_data := "../data/sample.json"; port := 8080 |}.

Definition get_ping : Request := {| req_method := "GET"; req_path := "/ping" |}.
Definition post_ping : Request := {| req_method := "POST"; req_path := "/ping" |}.

End Examples.

(** ** Vocabulary for the log and the registry *)

Section Records.
Context `{Dyn}.

(** The test of [checkWriteHeaderCode], as a boolean. *)
Definition valid_codeb (code : Z) : bool := (100 <=? code) && (code <=? 999).

(** The (method, url) key of a definition. *)
Definition key_of (api : ApiFormat) : string * string := (Method api, Url api).

(** The records the program writes (source lines 28, 56, 64 and 66). *)
Definition error_record (err : string) : LogRecord :=
  {| rec_level := LevelError; rec_msg := "Error occurred";
     rec_attrs := [("error", AError err)] |}.

Definition handled_record (api : ApiFormat) : LogRecord :=
  {| rec_level := LevelDebug; rec_msg := "API request handled";
     rec_attrs := [("method", AString (Method api)); ("url", AString (Url api));
                   ("status", AInt (Status (Response api)))] |}.

Definition registered_record (api : ApiFormat) : LogRecord :=
  {| rec_level := LevelInfo; rec_msg := "Registered endpoint";
     rec_attrs := [("method", AString (Method api)); ("url", AString (Url api))] |}.

Definition starting_record (w : World) : LogRecord :=
  {| rec_level := LevelInfo; rec_msg := "Starting server";
     rec_attrs := [("port", APointer (port_addr w))] |}.

End Records.

Module MoreExamples.

(** A world whose configuration file cannot be read. *)
Definition unreadable : World :=
  {| os_ReadFile := λ _, (EmptyString, Some "open ../data/sample.json: no such file or directory");
     json_Unmarshal := λ _, ([], Some "unexpected end of JSON input");
     port_addr := 824633811096 |}.


(** A second endpoint, on another path. *)
Definition pong : ApiFormat :=
  {| Url := "/pong"; Method := "POST";
     Response := {| Status := 204; Headers := ∅; Body := None |};
     Delay := 0 |}.

End MoreExamples.

(** * Properties *)

(** ** Running the handler *)

Section Handler.
Context `{Dyn}.

Lemma for_range_sets (order : list (string * any)) (x : Exchange) :
  for_range (λ kv, Header_Set kv.1 (fmt_Sprint kv.2)) order x
  = Ok () {| Header := set_headers order (Header x);
             calls := calls x ++ set_calls order;
             clock := clock x; logger := logger x |}.
Proof.
  revert x. induction order as [|kv order IH]; intros x; simpl.
  - unfold mret, M_ret. destruct x; simpl. by rewrite app_nil_r.
  - unfold mbind, M_bind. simpl. rewrite IH. simpl.
    unfold set_calls. simpl. by rewrite <- app_assoc.
Qed.

(** With a status [WriteHeader] accepts, the handler runs to its end. *)
Lemma handler_returns (api : ApiFormat) (order : list (string * any)) (x : Exchange) :
  valid_code (Status (Response api)) →
  handler api order x
  = Ok () {| Header := set_headers order (Header x);
             calls := calls x ++ set_calls order
                      ++ [CallWriteHeader (Status (Response api))]
                      ++ body_calls api ++ sleep_calls api;
             clock := clock x + (if 0 <? Delay api
                                 then Z.max 0 (milliseconds (Delay api)) else 0);
             logger := slog_emit LevelDebug "API request handled"
                         [("method", AString (Method api)); ("url", AString (Url api));
                          ("status", AInt (Status (Response api)))] (logger x) |}.
Proof.
  intros [Hlo Hhi]. unfold handler, mbind, M_bind.
  rewrite for_range_sets. unfold WriteHeader. simpl.
  rewrite (proj2 (Z.ltb_ge _ _)) by lia.
  rewrite (proj2 (Z.ltb_ge _ _)) by lia.
  simpl. unfold body_calls, sleep_calls, slog_Debug, json_Encoder_Encode, Write.
  destruct (Body (Response api)) as [body|];
    destruct (0 <? Delay api);
    unfold time_Sleep, record_call, mret, M_ret; simpl;
    rewrite <- ?app_assoc; simpl; rewrite ?app_nil_r, ?Z.add_0_r; done.
Qed.

(** With any other status, [WriteHeader] panics: the headers are set and
    nothing else happens. *)
Lemma handler_panics (api : ApiFormat) (order : list (string * any)) (x : Exchange) :
  ¬ valid_code (Status (Response api)) →
  handler api order x
  = Panic ("invalid WriteHeader code " +:+ itoa (Status (Response api)))
      {| Header := set_headers order (Header x);
         calls := calls x ++ set_calls order;
         clock := clock x; logger := logger x |}.
Proof.
  intros Hbad. unfold handler, mbind, M_bind.
  rewrite for_range_sets. unfold WriteHeader. simpl.
  destruct (Status (Response api) <? 100) eqn:E1; simpl; [done|].
  destruct (999 <? Status (Response api)) eqn:E2; simpl; [done|].
  exfalso. apply Hbad. unfold valid_code. lia.
Qed.

(** Setting headers is neither a status, nor a write, nor a sleep. *)
Lemma omap_set_calls {B} (f : Call → option B) (order : list (string * any)) :
  (∀ k v, f (CallSet k v) = None) → omap f (set_calls order) = [].
Proof.
  intros Hf. induction order as [|kv order IH]; simpl; [done|].
  by rewrite Hf.
Qed.

Lemma set_calls_perm (order order' : list (string * any)) :
  order ≡ₚ order' → set_calls order ≡ₚ set_calls order'.
Proof. intros Hp. unfold set_calls. by rewrite Hp. Qed.

Lemma set_headers_snoc (order : list (string * any)) (kv : string * any)
    (h : gmap string (list string)) :
  set_headers (order ++ [kv]) h
  = <[CanonicalMIMEHeaderKey kv.1 := [fmt_Sprint kv.2]]> (set_headers order h).
Proof. unfold set_headers. by rewrite foldl_app. Qed.



End Handler.

(** ** The order of the handler's steps *)

Lemma wrap64_small (z : Z) : int64_min ≤ z ≤ int64_max → wrap64 z = z.
Proof.
  unfold int64_min, int64_max, wrap64. intros Hz.
  rewrite Z.mod_small; lia.
Qed.

Lemma milliseconds_small (n : Z) :
  0 ≤ n ≤ 9223372036854 → milliseconds n = n * time_Millisecond.
Proof.
  intros Hn. unfold milliseconds, time_Millisecond.
  rewrite (wrap64_small n) by (unfold int64_min, int64_max; lia).
  apply wrap64_small. unfold int64_min, int64_max. lia.
Qed.



Lemma elem_of_set_calls `{Dyn} (c : Call) (order : list (string * any)) :
  c ∈ set_calls order → ∃ k v, c = CallSet k v.
Proof.
  unfold set_calls. intros Hin. apply list_elem_of_fmap in Hin as (kv & -> & _).
  eauto.
Qed.

(** C4, as amended: for every endpoint whose status is a code
    [WriteHeader] accepts (100 to 999), the handler first sets every
    configured header to the string form of its value, then writes the
    status, then writes the encoded body if and only if the body is
    non-null (and then sleeps if a delay is configured). *)
Theorem handler_steps_in_order `{Dyn} (api : ApiFormat) :
  valid_code (Status (Response api)) → steps_in_order api.
Proof.
  intros Hv order lg Hr. exists (set_calls order). split.
  - by apply set_calls_perm.
  - unfold handler_run. by rewrite handler_returns.
Qed.

Lemma handler_steps_in_order_witness :
  valid_code (Status (Response Examples.ping)) ∧ steps_in_order Examples.ping.
Proof.
  assert (Hv : valid_code (Status (Response Examples.ping)))
    by (unfold valid_code; simpl; lia).
  split; [exact Hv | exact (handler_steps_in_order Examples.ping Hv)].
Defined.

(** C4 as stated fails: with status 0 (a record without [status]), the
    headers are set, [WriteHeader] panics, and the non-null body is never
    written. *)
Lemma steps_cut_short_by_invalid_status :
  Body (Response Examples.no_status) ≠ None ∧ ¬ steps_in_order Examples.no_status.
Proof.
  split; [done|]. intros Hc.
  destruct (Hc (map_to_list (Headers (Response Examples.no_status))) default_logger)
    as (sets & _ & Heq); [unfold ranges; reflexivity|].
  unfold handler_run in Heq. rewrite handler_panics in Heq
    by (unfold valid_code; simpl; lia).
  apply (f_equal (omap (λ c, match c with
                             | CallWriteHeader code => Some code
                             | _ => None
                             end))) in Heq.
  simpl in Heq. rewrite omap_set_calls in Heq by done.
  rewrite !omap_app in Heq. simpl in Heq.
  destruct (omap _ sets); discriminate.
Qed.

(** ** The delay *)

(** C5, as amended: for every endpoint whose status [WriteHeader] accepts
    and whose delay d satisfies 0 < d <= 9223372036854 (so that d
    milliseconds fit a 64-bit [time.Duration]), the handler's last step is
    a sleep of d milliseconds, after the status and the body have been
    written, and it sleeps nowhere before. *)
Theorem handler_sleeps_last `{Dyn} (api : ApiFormat) :
  valid_code (Status (Response api)) →
  0 < Delay api ≤ 9223372036854 →
  sleeps_last api.
Proof.
  intros Hv [Hpos Hfit] order lg _.
  exists (set_calls order ++ [CallWriteHeader (Status (Response api))] ++ body_calls api).
  unfold handler_run. rewrite handler_returns by done. simpl.
  unfold sleep_calls. rewrite (proj2 (Z.ltb_lt _ _) Hpos).
  rewrite milliseconds_small by lia.
  repeat split.
  - by rewrite <- !app_assoc.
  - set_solver.
  - intros body Hbody. unfold body_calls. rewrite Hbody. set_solver.
  - intros d Hin. apply elem_of_app in Hin as [Hin|Hin];
      [|apply elem_of_cons in Hin as [Hin|Hin]].
    + apply elem_of_set_calls in Hin as (k & v & Heq). discriminate.
    + discriminate.
    + unfold body_calls in Hin. destruct (Body (Response api)).
      * apply list_elem_of_singleton in Hin. discriminate.
      * by apply elem_of_nil in Hin.
  - unfold time_Millisecond. lia.
Qed.

Lemma handler_sleeps_last_witness :
  valid_code (Status (Response Examples.delayed))
  ∧ 0 < Delay Examples.delayed ≤ 9223372036854
  ∧ sleeps_last Examples.delayed.
Proof.
  assert (Hv : valid_code (Status (Response Examples.delayed)))
    by (unfold valid_code; simpl; lia).
  assert (Hd : 0 < Delay Examples.delayed ≤ 9223372036854) by (simpl; lia).
  split; [exact Hv|]. split; [exact Hd|].
  exact (handler_sleeps_last Examples.delayed Hv Hd).
Defined.

(** C5 as stated fails twice over. A delay of 9223372036855 ms is
    positive, but its nanoseconds wrap around to a negative
    [time.Duration] and [time.Sleep] returns at once. And with status 0
    the handler panics in [WriteHeader] and never reaches the sleep. *)
Lemma delay_not_always_slept :
  (0 < Delay Examples.slow ∧ ¬ sleeps_last Examples.slow)
  ∧ (0 < Delay Examples.no_status ∧ ¬ sleeps_last Examples.no_status).
Proof.
  split; (split; [simpl; lia|]); intros Hc.
  - destruct (Hc (map_to_list (Headers (Response Examples.slow))) default_logger)
      as (pre & _ & _ & _ & _ & Hclock); [unfold ranges; reflexivity|].
    unfold handler_run in Hclock. rewrite handler_returns in Hclock
      by (unfold valid_code; simpl; lia).
    vm_compute in Hclock. discriminate.
  - destruct (Hc (map_to_list (Headers (Response Examples.no_status))) default_logger)
      as (pre & _ & _ & _ & _ & Hclock); [unfold ranges; reflexivity|].
    unfold handler_run in Hclock. rewrite handler_panics in Hclock
      by (unfold valid_code; simpl; lia).
    vm_compute in Hclock. discriminate.
Qed.

(** C9: for every endpoint whose delay is zero or negative, the handler
    does not sleep at all, whatever the order of the headers and whatever
    the status. *)
Theorem no_sleep_without_positive_delay `{Dyn} (api : ApiFormat)
    (order : list (string * any)) (lg : Logger) :
  Delay api ≤ 0 →
  sleeps (handler_run api order lg) = [] ∧ clock (handler_run api order lg) = 0.
Proof.
  intros Hd. unfold handler_run, sleeps.
  destruct (decide (100 ≤ Status (Response api) ≤ 999)) as [Hv|Hv].
  - rewrite handler_returns by done. simpl.
    unfold sleep_calls. rewrite (proj2 (Z.ltb_ge _ _) Hd).
    rewrite !omap_app, omap_set_calls by done. split; [|done].
    unfold body_calls. by destruct (Body (Response api)).
  - rewrite handler_panics by done. simpl.
    by rewrite omap_set_calls.
Qed.

Lemma no_sleep_without_positive_delay_witness :
  Delay Examples.hasty ≤ 0
  ∧ sleeps (handler_run Examples.hasty
              (map_to_list (Headers (Response Examples.hasty))) default_logger) = []
  ∧ clock (handler_run Examples.hasty
             (map_to_list (Headers (Response Examples.hasty))) default_logger) = 0.
Proof.
  assert (Hd : Delay Examples.hasty ≤ 0) by (simpl; lia).
  split; [exact Hd|].
  exact (no_sleep_without_positive_delay Examples.hasty _ default_logger Hd).
Defined.

(** ** The body *)




(** ** Registration *)

Section Registration.
Context `{Dyn}.

Lemma patterns_entries (apis : list ApiFormat) :
  patterns (entry <$> apis) = pattern_of <$> apis.
Proof. unfold patterns. rewrite <- list_fmap_compose. done. Qed.

(** A registration that completes appends every definition, and none of
    their patterns was there before or occurs twice. *)
Lemma register_completes (apis : list ApiFormat) (p p' : Process) :
  register apis p = (p', None) →
  DefaultServeMux p' = DefaultServeMux p ++ (entry <$> apis)
  ∧ (NoDup (patterns (DefaultServeMux p)) → NoDup (patterns (DefaultServeMux p'))).
Proof.
  revert p. induction apis as [|api apis IH]; intros p Hreg; simpl in Hreg.
  - injection Hreg as <-. by rewrite app_nil_r.
  - unfold http_HandleFunc in Hreg.
    destruct (decide (pattern_of api ∈ patterns (DefaultServeMux p))) as [|Hfresh];
      [discriminate|].
    apply IH in Hreg as [Hmux Hnd]. simpl in Hmux, Hnd. split.
    + rewrite Hmux, <- app_assoc. done.
    + intros Hp. apply Hnd. unfold patterns. rewrite fmap_app. simpl.
      apply NoDup_app. split_and!; [done| |apply NoDup_singleton].
      intros x Hx Hx'. apply list_elem_of_singleton in Hx'. by subst.
Qed.

(** A registration that panics stops at the first definition whose
    pattern is already registered, and leaves the earlier ones as they
    were registered. *)
Lemma register_stops (apis : list ApiFormat) (p p' : Process) (msg : string) :
  register apis p = (p', Some msg) →
  ∃ pre api rest, apis = pre ++ api :: rest
    ∧ DefaultServeMux p' = DefaultServeMux p ++ (entry <$> pre)
    ∧ pattern_of api ∈ patterns (DefaultServeMux p')
    ∧ (NoDup (patterns (DefaultServeMux p)) → NoDup (patterns (DefaultServeMux p'))).
Proof.
  revert p. induction apis as [|api apis IH]; intros p Hreg; simpl in Hreg.
  - discriminate.
  - unfold http_HandleFunc in Hreg.
    destruct (decide (pattern_of api ∈ patterns (DefaultServeMux p))) as [Hdup|Hfresh].
    + injection Hreg as <- _. exists [], api, apis. simpl.
      by rewrite app_nil_r.
    + apply IH in Hreg as (pre & a & rest & -> & Hmux & Hin & Hnd).
      simpl in Hmux, Hnd. exists (api :: pre), a, rest. split_and!.
      * done.
      * rewrite Hmux, <- app_assoc. done.
      * done.
      * intros Hp. apply Hnd. unfold patterns. rewrite fmap_app. simpl.
        apply NoDup_app. split_and!; [done| |apply NoDup_singleton].
        intros x Hx Hx'. apply list_elem_of_singleton in Hx'. by subst.
Qed.

(** Two definitions with one key cannot both be registered. *)
Lemma register_rejects_duplicates (apis : list ApiFormat) (p p' : Process)
    (i j : nat) (a b : ApiFormat) :
  apis !! i = Some a → apis !! j = Some b → i ≠ j →
  Method a = Method b → Url a = Url b →
  register apis p ≠ (p', None).
Proof.
  intros Hi Hj Hne Hm Hu Hreg.
  assert (Hnd : NoDup (pattern_of <$> apis)).
  { revert p Hreg. clear. induction apis as [|api apis IH]; intros p Hreg.
    - constructor.
    - simpl in Hreg. unfold http_HandleFunc in Hreg.
      destruct (decide (pattern_of api ∈ patterns (DefaultServeMux p))) as [|Hfresh];
        [discriminate|].
      pose proof (register_completes _ _ _ Hreg) as [Hmux _].
      rewrite fmap_cons. apply NoDup_cons. split; [|by eapply IH].
      intros Hin. apply list_elem_of_fmap in Hin as (a & Hpa & Ha).
      (* the later definition [a] would have met [api]'s pattern *)
      apply list_elem_of_lookup in Ha as [k Hk].
      apply take_drop_middle in Hk.
      rewrite <- Hk in Hreg. clear Hk IH Hmux.
      revert Hreg. generalize (drop (S k) apis). generalize (take k apis).
      intros pre rest.
      set (q := {| DefaultServeMux := DefaultServeMux p ++ [(pattern_of api, api)];
                   slog_default := _ |}).
      assert (Hq : pattern_of api ∈ patterns (DefaultServeMux q)).
      { unfold q, patterns. simpl. rewrite fmap_app. set_solver. }
      clearbody q. revert q Hq. induction pre as [|c pre IHpre]; intros q Hq Hreg.
      + simpl in Hreg. unfold http_HandleFunc in Hreg. rewrite <- Hpa in Hreg.
        destruct (decide _) as [|Hn]; [discriminate|]. by destruct Hn.
      + simpl in Hreg. unfold http_HandleFunc in Hreg.
        destruct (decide (pattern_of c ∈ patterns (DefaultServeMux q))); [discriminate|].
        eapply IHpre; [|exact Hreg]. unfold patterns. simpl. rewrite fmap_app.
        apply elem_of_app. by left. }
  apply Hne. eapply NoDup_lookup; [exact Hnd| |].
  - rewrite list_lookup_fmap, Hi. done.
  - rewrite list_lookup_fmap, Hj. simpl. unfold pattern_of. by rewrite Hm, Hu.
Qed.

End Registration.

(** ** [main] *)

(** C1, as amended: for every configuration holding two definitions with
    the same (method, url) key, registry construction does not complete:
    [http.HandleFunc] panics on a pattern that is already registered, the
    listener is never started, and no registration is replaced, each
    pattern registered up to the panic belonging to the first definition
    that carries it. *)
Theorem duplicate_key_panics `{Dyn} (w : World) (fl : Flags) (file : string)
    (i j : nat) (a b : ApiFormat) :
  os_ReadFile w (mock_data fl) = (file, None) →
  (json_Unmarshal w file).1 !! i = Some a →
  (json_Unmarshal w file).1 !! j = Some b →
  i ≠ j → Method a = Method b → Url a = Url b →
  (∃ msg, exit (main w fl) = ExitPanic msg)
  ∧ listen_addr (main w fl) = None
  ∧ ∃ pre, pre `prefix_of` (json_Unmarshal w file).1
      ∧ DefaultServeMux (proc (main w fl)) = entry <$> pre
      ∧ NoDup (pattern_of <$> pre).
Proof.
  intros Hfile Hi Hj Hne Hm Hu. unfold main. rewrite Hfile. simpl.
  destruct (register _ _) as [p [msg|]] eqn:Hreg.
  - simpl. split; [by eexists|]. split; [done|].
    apply register_stops in Hreg as (pre & api & rest & Hapis & Hmux & _ & Hnd).
    exists pre. simpl in Hmux. split_and!.
    + rewrite Hapis. by apply prefix_app_r.
    + done.
    + rewrite <- patterns_entries, <- Hmux. apply Hnd. simpl. constructor.
  - exfalso. by apply (register_rejects_duplicates _ _ _ i j a b Hi Hj Hne Hm Hu Hreg).
Qed.

Lemma duplicate_key_panics_witness :
  exit (main (Examples.world [Examples.ping; Examples.ping_again] None) Examples.flags)
  = ExitPanic "pattern GET /ping conflicts with pattern GET /ping"
  ∧ DefaultServeMux (proc (main (Examples.world [Examples.ping; Examples.ping_again] None)
                             Examples.flags))
    = [entry Examples.ping]
  ∧ ((∃ msg, exit (main (Examples.world [Examples.ping; Examples.ping_again] None)
                     Examples.flags) = ExitPanic msg)
     ∧ listen_addr (main (Examples.world [Examples.ping; Examples.ping_again] None)
                      Examples.flags) = None
     ∧ ∃ pre, pre `prefix_of` [Examples.ping; Examples.ping_again]
         ∧ DefaultServeMux (proc (main (Examples.world [Examples.ping; Examples.ping_again]
                                          None) Examples.flags)) = entry <$> pre
         ∧ NoDup (pattern_of <$> pre)).
Proof.
  split; [reflexivity|]. split; [reflexivity|].
  apply (duplicate_key_panics
           (Examples.world [Examples.ping; Examples.ping_again] None) Examples.flags
           "(configuration bytes)" 0 1 Examples.ping Examples.ping_again);
    first [reflexivity | lia].
Defined.

(** C1 as stated fails: with two definitions for [GET /ping], registration
    does not complete, let alone hand the key to the second one. *)
Lemma last_registration_does_not_win :
  ¬ last_registration_wins [Examples.ping; Examples.ping_again].
Proof.
  intros Hc. destruct (Hc default_logger) as (p & Hreg & _).
  apply (register_rejects_duplicates _ _ _ 0 1 Examples.ping Examples.ping_again)
    in Hreg; [done|reflexivity|reflexivity|lia|reflexivity|reflexivity].
Qed.

(** [main] never looks at the error [json.Unmarshal] returns. *)
Lemma main_ignores_decode_error `{Dyn} (w w' : World) (fl : Flags) :
  os_ReadFile w = os_ReadFile w' →
  port_addr w = port_addr w' →
  (∀ file, (json_Unmarshal w file).1 = (json_Unmarshal w' file).1) →
  main w fl = main w' fl.
Proof.
  intros Hread Hport Hdec. unfold main. rewrite Hread, Hport.
  destruct (os_ReadFile w' (mock_data fl)) as [file [err|]]; [done|].
  simpl. by rewrite Hdec.
Qed.

(** C2, on the code: when the decoder fails and leaves [apis] empty, as it
    does on bytes that are not JSON, [main] does not panic and logs no
    error; it goes on to call [http.ListenAndServe] with nothing
    registered. *)
Theorem unmarshal_error_is_dropped `{Dyn} (w : World) (fl : Flags)
    (file e : string) :
  os_ReadFile w (mock_data fl) = (file, None) →
  json_Unmarshal w file = ([], Some e) →
  (∀ msg, exit (main w fl) ≠ ExitPanic msg)
  ∧ listen_addr (main w fl) = Some (Sprintf_colon_s_ptr (port_addr w))
  ∧ DefaultServeMux (proc (main w fl)) = []
  ∧ no_record_at LevelError (slog_default (proc (main w fl))).
Proof.
  intros Hfile Hdec. unfold main. rewrite Hfile, Hdec. simpl.
  split_and!; [|done|done|].
  - intros msg. by destruct (net_Listen _).
  - intros rec Hin. destruct (debug fl); simpl in Hin;
      apply list_elem_of_singleton in Hin; by subst.
Qed.

Lemma unmarshal_error_is_dropped_witness :
  json_Unmarshal (Examples.world [] (Some "invalid character 'o' in literal null"))
    "(configuration bytes)"
  = ([], Some "invalid character 'o' in literal null")
  ∧ ((∀ msg, exit (main (Examples.world [] (Some "invalid character 'o' in literal null"))
                     Examples.flags) ≠ ExitPanic msg)
     ∧ listen_addr (main (Examples.world [] (Some "invalid character 'o' in literal null"))
                      Examples.flags)
       = Some (Sprintf_colon_s_ptr 824633811096)
     ∧ DefaultServeMux (proc (main (Examples.world []
                                      (Some "invalid character 'o' in literal null"))
                                   Examples.flags)) = []
     ∧ no_record_at LevelError
         (slog_default (proc (main (Examples.world []
                                      (Some "invalid character 'o' in literal null"))
                                   Examples.flags)))).
Proof.
  split; [reflexivity|].
  apply (unmarshal_error_is_dropped
           (Examples.world [] (Some "invalid character 'o' in literal null"))
           Examples.flags "(configuration bytes)"
           "invalid character 'o' in literal null"); reflexivity.
Defined.

(** ** The listen address *)

Lemma contains_byte_app (c : ascii) (s t : string) :
  contains_byte c (s +:+ t) = contains_byte c s || contains_byte c t.
Proof.
  induction s as [|c' s IH]; [done|].
  change (contains_byte c (String c' (s +:+ t))
          = contains_byte c (String c' s) || contains_byte c t).
  simpl. rewrite IH. by rewrite orb_assoc.
Qed.

(** An address without colon has no port text. *)
Lemma port_text_no_colon (s : string) :
  contains_byte ":" s = false → port_text s = None.
Proof.
  induction s as [|c s IH]; [done|].
  change (contains_byte ":" (String c s))
    with (Ascii.eqb ":" c || contains_byte ":" s).
  change (port_text (String c s))
    with (match port_text s with
          | Some p => Some p
          | None => if Ascii.eqb c ":" then Some s else None
          end).
  intros Hc. apply orb_false_iff in Hc as [Hc Hs].
  rewrite IH by done. by rewrite Ascii.eqb_sym, Hc.
Qed.

Lemma hex_digits_no_colon (d : Hexadecimal.uint) :
  contains_byte ":" (HexadecimalString.NilEmpty.string_of_uint d) = false.
Proof. induction d; simpl; done. Qed.

Lemma hex_no_colon (n : N) : contains_byte ":" (hex n) = false.
Proof.
  unfold hex, HexadecimalString.NilZero.string_of_uint.
  destruct (N.to_hex_uint n); try apply hex_digits_no_colon. done.
Qed.

(** A decimal numeral starts with a digit or with the minus sign. *)
Lemma itoa_head (n : Z) (rest : string) : itoa n ≠ String "%" rest.
Proof.
  unfold itoa, DecimalString.NilZero.string_of_int,
    DecimalString.NilZero.string_of_uint.
  destruct (Z.to_int n) as [d|d]; destruct d; simpl; discriminate.
Qed.

(** C8: whatever the port flag, the address given to the listener is the
    bad-verb rendering of the flag's pointer, never ":" followed by the
    port in decimal; its port text is no port number, so the listener
    binds nothing and [main] never serves. *)
Theorem listen_address_never_names_port `{Dyn} (w : World) (fl : Flags) :
  (∀ n : Z, Sprintf_colon_s_ptr (port_addr w) ≠ ":" +:+ itoa n)
  ∧ net_Listen (Sprintf_colon_s_ptr (port_addr w)) = None
  ∧ (∀ addr, listen_addr (main w fl) = Some addr →
       addr = Sprintf_colon_s_ptr (port_addr w))
  ∧ (∀ n, exit (main w fl) ≠ Serving n).
Proof.
  assert (Hlisten : net_Listen (Sprintf_colon_s_ptr (port_addr w)) = None).
  { unfold net_Listen, Sprintf_colon_s_ptr.
    change (":" +:+ "%!s(" +:+ "*int=0x" +:+ hex (port_addr w) +:+ ")")
      with (String ":" ("%!s(" +:+ "*int=0x" +:+ hex (port_addr w) +:+ ")")).
    simpl port_text. rewrite port_text_no_colon; [done|].
    rewrite !contains_byte_app, hex_no_colon. done. }
  split_and!.
  - intros n Heq. unfold Sprintf_colon_s_ptr in Heq.
    change (String ":" (String "%" ("!s(" +:+ "*int=0x" +:+ hex (port_addr w) +:+ ")"))
            = String ":" (itoa n)) in Heq.
    injection Heq as Heq. symmetry in Heq. by apply itoa_head in Heq.
  - done.
  - intros addr. unfold main.
    destruct (os_ReadFile w (mock_data fl)) as [file [err|]]; [done|]. simpl.
    destruct (register _ _) as [p [msg|]]; [done|].
    simpl. by intros [= <-].
  - intros n. unfold main.
    destruct (os_ReadFile w (mock_data fl)) as [file [err|]]; [done|]. simpl.
    destruct (register _ _) as [p [msg|]]; [done|].
    simpl. by rewrite Hlisten.
Qed.

(** The address [main] builds when the flag variable sits at
    0xc000016098. *)
Example listen_address_example :
  Sprintf_colon_s_ptr 824633811096 = ":%!s(" +:+ "*int=0xc000016098)"
  ∧ net_Listen (Sprintf_colon_s_ptr 824633811096) = None
  ∧ net_Listen ":8080" = Some 8080.
Proof. vm_compute. done. Qed.

(** ** Observers *)

Section Observers.
Context `{Dyn}.
Import Notifier.

(** [notify] returns whatever the observers do. *)
Lemma notify_returns (observers : list Observer) (ev : Event) :
  ∃ faults, notify observers ev = Returns faults.
Proof.
  induction observers as [|o rest [faults IH]]; simpl.
  - by eexists.
  - rewrite IH. simpl. by eexists.
Qed.

End Observers.

(** C7: for every request and every registry, what the client sees
    (status, headers, body) is the same with any observers attached as
    with none, also when observers raise on every call; the dispatch
    always returns. *)
Theorem observers_do_not_change_response `{Dyn}
    (observers : list Notifier.Observer) (reg : gmap (string * string) ApiFormat)
    (order : gmap string any → list (string * any)) (r : Request) :
  ∃ v, Notifier.dispatch [] reg order r = Notifier.Returns v
       ∧ Notifier.dispatch observers reg order r = Notifier.Returns v.
Proof.
  unfold Notifier.dispatch.
  destruct (reg !! (req_method r, req_path r)) as [def|];
    repeat match goal with
           | |- context [Notifier.notify ?obs ?ev] =>
               destruct (notify_returns obs ev) as [? ->]
           end;
    unfold Notifier.and_then.
  - destruct (panicked _); by eexists.
  - by eexists.
Qed.

(** Two observers that raise on every call and one that does not: the
    client sees what it sees with none. *)
Example failing_observers_example :
  Notifier.dispatch [Notifier.failing; Notifier.quiet; Notifier.failing]
    (Notifier.register [Examples.ping]) map_to_list Examples.get_ping
  = Notifier.dispatch [] (Notifier.register [Examples.ping]) map_to_list Examples.get_ping
  ∧ Notifier.notify [Notifier.failing; Notifier.quiet; Notifier.failing]
      {| Notifier.name := Notifier.request_started;
         Notifier.attributes := Notifier.request_attributes Examples.get_ping;
         Notifier.success := true |}
    = Notifier.Returns ["observer failed"; "observer failed"].
Proof. split; reflexivity. Qed.

(** ** Dispatch *)

Section Dispatch.
Context `{Dyn}.

Lemma token_not_blank (c : ascii) :
  validHeaderFieldByte c = true → is_blank c = false.
Proof.
  destruct c as [[|] [|] [|] [|] [|] [|] [|] [|]]; vm_compute; congruence.
Qed.

Lemma cut_at_blank_token (m rest : string) :
  all_bytes validHeaderFieldByte m = true →
  cut_at_blank (m +:+ " " +:+ rest) = Some (m, rest).
Proof.
  induction m as [|c m IH]; [done|].
  change (all_bytes validHeaderFieldByte (String c m))
    with (validHeaderFieldByte c && all_bytes validHeaderFieldByte m).
  intros Hm. apply andb_true_iff in Hm as [Hc Hm].
  change (cut_at_blank (String c (m +:+ " " +:+ rest)) = Some (String c m, rest)).
  cbn [cut_at_blank]. rewrite (token_not_blank c Hc), IH by done. done.
Qed.

(** The pattern of a literal route parses back into its method and url. *)
Lemma parsePattern_literal (api : ApiFormat) :
  literal_route api = true →
  parsePattern (pattern_of api) = (Method api, Url api).
Proof.
  unfold literal_route, validMethod, plain_path, pattern_of, parsePattern.
  intros Hl. apply andb_true_iff in Hl as [Hm Hu].
  apply andb_true_iff in Hm as [_ Hm].
  rewrite cut_at_blank_token by done.
  destruct (Url api) as [|c u]; [done|].
  unfold segments in Hu.
  destruct c as [[|] [|] [|] [|] [|] [|] [|] [|]]; try discriminate Hu. done.
Qed.

Lemma entry_method (api : ApiFormat) :
  literal_route api = true → pattern_method (entry api) = Method api.
Proof. intros Hl. unfold pattern_method. simpl. by rewrite parsePattern_literal. Qed.

Lemma entry_path (api : ApiFormat) :
  literal_route api = true → pattern_path (entry api) = Url api.
Proof. intros Hl. unfold pattern_path. simpl. by rewrite parsePattern_literal. Qed.

Lemma literal_elem (apis : list ApiFormat) (a : ApiFormat) :
  forallb literal_route apis = true → a ∈ apis → literal_route a = true.
Proof.
  intros Hall Ha. rewrite forallb_forall in Hall. apply Hall.
  by apply list_elem_of_In.
Qed.

Lemma NoDup_fmap_elem {A B} (f : A → B) (l : list A) (a b : A) :
  NoDup (f <$> l) → a ∈ l → b ∈ l → f a = f b → a = b.
Proof.
  intros Hnd Ha Hb Hf.
  apply list_elem_of_lookup in Ha as [i Hi]. apply list_elem_of_lookup in Hb as [j Hj].
  assert (i = j) as ->.
  { eapply NoDup_lookup; [exact Hnd| |].
    - by rewrite list_lookup_fmap, Hi.
    - rewrite list_lookup_fmap, Hj. simpl. by rewrite Hf. }
  congruence.
Qed.


Lemma insert_sorted_nonempty (s : string) (l : list string) : insert_sorted s l ≠ [].
Proof. destruct l as [|t l]; simpl; [done|]. by destruct (String.compare s t). Qed.

(** A path is registered under some method exactly when [matchingMethods]
    is non-empty. *)
Lemma matchingMethods_empty (apis : list ApiFormat) (path : string) :
  forallb literal_route apis = true →
  existsb (λ a, String.eqb (Url a) path) apis = false →
  matchingMethods (entry <$> apis) path = [].
Proof.
  intros Hlit Hex. unfold matchingMethods.
  assert (Hnone : filter (λ e, pattern_path e = path) (entry <$> apis) = []).
  { destruct (filter _ _) as [|e l] eqn:Hf; [done|]. exfalso.
    assert (He : e ∈ filter (λ e, pattern_path e = path) (entry <$> apis))
      by (rewrite Hf; left).
    apply list_elem_of_filter in He as [Hp He].
    apply list_elem_of_fmap in He as (a & -> & Ha).
    rewrite entry_path in Hp by by eapply literal_elem.
    assert (Hfalse : existsb (λ a, String.eqb (Url a) path) apis = true).
    { apply existsb_exists. exists a. split; [by apply list_elem_of_In|].
      by apply String.eqb_eq. }
    congruence. }
  rewrite Hnone. rewrite fmap_nil. destruct (decide _) as [Hget|]; [|done].
  by apply elem_of_nil in Hget.
Qed.

Lemma matchingMethods_nonempty (apis : list ApiFormat) (path : string) :
  forallb literal_route apis = true →
  existsb (λ a, String.eqb (Url a) path) apis = true →
  matchingMethods (entry <$> apis) path ≠ [].
Proof.
  intros Hlit Hex. unfold matchingMethods.
  apply existsb_exists in Hex as (a & Ha & Hp).
  apply list_elem_of_In in Ha. apply String.eqb_eq in Hp.
  assert (Hin : entry a ∈ filter (λ e, pattern_path e = path) (entry <$> apis)).
  { apply list_elem_of_filter. split.
    - rewrite entry_path by by eapply literal_elem. done.
    - apply list_elem_of_fmap. eauto. }
  destruct (filter _ _) as [|e l]; [by apply elem_of_nil in Hin|].
  simpl. destruct (decide _); simpl; apply insert_sorted_nonempty.
Qed.

(** A request no literal route serves is answered by the mux itself: 405
    when its path is registered under other methods, 404 otherwise. *)
Lemma findHandler_miss (apis : list ApiFormat) (r : Request) :
  forallb literal_route apis = true →
  (∀ a, a ∈ apis → Url a = req_path r →
        method_matches (Method a) (req_method r) = false) →
  findHandler (entry <$> apis) r
  = if existsb (λ a, String.eqb (Url a) (req_path r)) apis
    then RouteMethodNotAllowed (matchingMethods (entry <$> apis) (req_path r))
    else RouteNotFound.
Proof.
  intros Hlit Hmiss. unfold findHandler.
  assert (Hno : ∀ e, e ∈ filter (λ e, pattern_path e = req_path r) (entry <$> apis) →
                     method_matches (pattern_method e) (req_method r) = false).
  { intros e He. apply list_elem_of_filter in He as [Hp He].
    apply list_elem_of_fmap in He as (a & -> & Ha).
    pose proof (literal_elem _ _ Hlit Ha) as Hla.
    rewrite entry_path in Hp by done. rewrite entry_method by done. by apply Hmiss. }
  destruct (find _ _) as [e|] eqn:Hfind.
  { apply find_some in Hfind as [He Heq]. apply list_elem_of_In, Hno in He.
    unfold method_matches in He. by rewrite Heq in He. }
  clear Hfind. destruct (find _ _) as [e|] eqn:Hfind.
  { apply find_some in Hfind as [He Heq]. apply list_elem_of_In, Hno in He.
    congruence. }
  destruct (existsb _ apis) eqn:Hex.
  - pose proof (matchingMethods_nonempty apis (req_path r) Hlit Hex) as Hne.
    by destruct (matchingMethods _ _).
  - by rewrite matchingMethods_empty.
Qed.

End Dispatch.

(** ** The response a registered endpoint serves *)




(** The specification's example, run: [GET /ping] gets status 200, the
    header [X-Test: 1] and a body that decodes to [{"ok": true}]. *)
Example ping_is_served :
  let x := final (ServeHTTP [entry Examples.ping] map_to_list Examples.get_ping
                    (new_exchange default_logger)) in
  codes_written x = [200]
  ∧ Header_Get (Header x) "X-Test" = Some "1"
  ∧ Lit.Unmarshal (body_written x) = Some {[ "ok" := Lit.Bool true ]}.
Proof. vm_compute. done. Qed.


(** ** Requests that match nothing *)

(** C6, as amended: for every inbound request that no registered endpoint
    serves (none has its path with its method, nor with GET when the
    request is HEAD), among literal routes: no endpoint handler runs, the
    server emits no event at all (it has no notifier and logs nothing for
    the request), and the status is the mux's own, 404 when the path is
    registered under no method and 405 when it is registered under other
    methods. *)
Theorem unmatched_request_gets_mux_reply `{Dyn} (apis : list ApiFormat)
    (p : Process) (lg0 lg : Logger) (order : gmap string any → list (string * any))
    (r : Request) :
  register apis (initial_process lg0) = (p, None) →
  forallb literal_route apis = true →
  plain_path (req_path r) = true →
  (∀ a, a ∈ apis → Url a = req_path r →
        method_matches (Method a) (req_method r) = false) →
  let x := final (ServeHTTP (DefaultServeMux p) order r (new_exchange lg)) in
  (∀ api, findHandler (DefaultServeMux p) r ≠ RouteHandler api)
  ∧ emitted lg x = []
  ∧ codes_written x
    = [if existsb (λ a, String.eqb (Url a) (req_path r)) apis
       then StatusMethodNotAllowed else StatusNotFound].
Proof.
  intros Hreg Hlit _ Hmiss.
  apply register_completes in Hreg as [Hmux _]. simpl in Hmux. rewrite Hmux.
  unfold ServeHTTP. rewrite (findHandler_miss apis r Hlit Hmiss).
  destruct (existsb _ apis); simpl; (split_and!; [done| |done]);
    unfold emitted; simpl; apply drop_all.
Qed.

Lemma unmatched_request_gets_mux_reply_witness :
  plain_path (req_path Examples.post_ping) = true
  ∧ forallb literal_route [Examples.ping] = true
  ∧ codes_written (final (ServeHTTP [entry Examples.ping] map_to_list Examples.post_ping
                            (new_exchange default_logger))) = [405]
  ∧ emitted default_logger
      (final (ServeHTTP [entry Examples.ping] map_to_list Examples.post_ping
                (new_exchange default_logger))) = [].
Proof.
  split; [reflexivity|]. split; [reflexivity|].
  assert (Hmiss : ∀ a, a ∈ [Examples.ping] → Url a = req_path Examples.post_ping →
                       method_matches (Method a) (req_method Examples.post_ping) = false).
  { intros a Ha _. apply list_elem_of_singleton in Ha. subst a. reflexivity. }
  destruct (unmatched_request_gets_mux_reply [Examples.ping] _ default_logger
              default_logger map_to_list Examples.post_ping eq_refl eq_refl eq_refl Hmiss)
    as (_ & Hquiet & Hcodes).
  split; [exact Hcodes | exact Hquiet].
Defined.

(** C6 as stated fails: [POST /ping], with only [GET /ping] registered,
    matches no endpoint; it is answered 405, not 404, and no
    [request.not_found] event is emitted. *)
Lemma miss_is_not_reported :
  (∀ a, a ∈ [Examples.ping] →
        ¬ (Method a = req_method Examples.post_ping
           ∧ Url a = req_path Examples.post_ping))
  ∧ codes_written (final (ServeHTTP [entry Examples.ping] map_to_list Examples.post_ping
                            (new_exchange default_logger))) = [405]
  ∧ emitted default_logger
      (final (ServeHTTP [entry Examples.ping] map_to_list Examples.post_ping
                (new_exchange default_logger))) = []
  ∧ ¬ not_found_reported [entry Examples.ping] Examples.post_ping.
Proof.
  split_and!.
  - intros a Ha [Hm _]. apply list_elem_of_singleton in Ha. subst a. discriminate.
  - reflexivity.
  - reflexivity.
  - intros Hc. destruct (Hc map_to_list default_logger) as (Hcodes & _).
    vm_compute in Hcodes. discriminate.
Qed.

(** * Further properties of the program *)

(** ** [check] and the read error *)

(** X1: when [os.ReadFile] fails, [check] logs the error once at level
    Error and panics with it: nothing is decoded or registered and the
    listener is never called. *)
Theorem read_error_is_fatal `{Dyn} (w : World) (fl : Flags) (file err : string) :
  os_ReadFile w (mock_data fl) = (file, Some err) →
  exit (main w fl) = ExitPanic err
  ∧ records (slog_default (proc (main w fl))) = [error_record err]
  ∧ DefaultServeMux (proc (main w fl)) = []
  ∧ listen_addr (main w fl) = None.
Proof.
  intros Hread. unfold main. rewrite Hread. unfold check, initial_process.
  destruct (debug fl); done.
Qed.

Lemma read_error_is_fatal_witness :
  exit (main MoreExamples.unreadable Examples.flags)
  = ExitPanic "open ../data/sample.json: no such file or directory"
  ∧ records (slog_default (proc (main MoreExamples.unreadable Examples.flags)))
    = [error_record "open ../data/sample.json: no such file or directory"]
  ∧ DefaultServeMux (proc (main MoreExamples.unreadable Examples.flags)) = []
  ∧ listen_addr (main MoreExamples.unreadable Examples.flags) = None.
Proof.
  exact (read_error_is_fatal MoreExamples.unreadable Examples.flags EmptyString
           "open ../data/sample.json: no such file or directory" eq_refl).
Defined.

(** ** The logger *)

Lemma slog_emit_min_level (l : Level) (msg : string) (attrs : list (string * Attr))
    (lg : Logger) :
  min_level (slog_emit l msg attrs lg) = min_level lg.
Proof. unfold slog_emit. by destruct (_ <=? _). Qed.

Lemma register_min_level `{Dyn} (apis : list ApiFormat) (p : Process) :
  min_level (slog_default (register apis p).1) = min_level (slog_default p).
Proof.
  revert p. induction apis as [|api apis IH]; intros p; simpl; [done|].
  destruct (http_HandleFunc _ _ _); [done|].
  rewrite IH. simpl. apply slog_emit_min_level.
Qed.

(** The level of the process logger is set by the [debug] flag and by
    nothing else, however [main] ends. *)
Lemma main_min_level `{Dyn} (w : World) (fl : Flags) :
  min_level (slog_default (proc (main w fl)))
  = if debug fl then LevelDebug else LevelInfo.
Proof.
  unfold main. destruct (os_ReadFile w (mock_data fl)) as [file [err|]]; simpl.
  - rewrite slog_emit_min_level. by destruct (debug fl).
  - pose proof (register_min_level (json_Unmarshal w file).1
                  (initial_process (if debug fl
                                    then slog_SetLogLoggerLevel LevelDebug default_logger
                                    else default_logger))) as Hlvl.
    destruct (register _ _) as [p [msg|]]; simpl in *.
    + rewrite Hlvl. by destruct (debug fl).
    + rewrite slog_emit_min_level, Hlvl. by destruct (debug fl).
Qed.

Lemma valid_codeb_spec (code : Z) : valid_codeb code = true ↔ valid_code code.
Proof. unfold valid_codeb, valid_code. rewrite andb_true_iff, !Z.leb_le. done. Qed.

(** X2: under the logger [main] leaves behind, a handler writes its
    "API request handled" record, with method, url and status, exactly
    when the server was started with [-debug] and [WriteHeader] accepted
    the status; otherwise it logs nothing. *)
Theorem handled_is_logged_only_in_debug `{Dyn} (w : World) (fl : Flags)
    (api : ApiFormat) (order : list (string * any)) :
  emitted (slog_default (proc (main w fl)))
    (handler_run api order (slog_default (proc (main w fl))))
  = if debug fl && valid_codeb (Status (Response api))
    then [handled_record api] else [].
Proof.
  pose proof (main_min_level w fl) as Hlvl.
  set (lg := slog_default (proc (main w fl))) in *.
  unfold emitted, handler_run.
  destruct (valid_codeb (Status (Response api))) eqn:Hv.
  - apply valid_codeb_spec in Hv. rewrite handler_returns by done. simpl.
    unfold slog_emit. rewrite Hlvl.
    destruct (debug fl); simpl.
    + by rewrite drop_app_length.
    + by rewrite drop_all.
  - rewrite handler_panics.
    + simpl. rewrite drop_all. by rewrite andb_false_r.
    + intros Hvalid. apply valid_codeb_spec in Hvalid. congruence.
Qed.

(** ** The handler on every status *)

(** X3: the handler panics exactly when the status is outside 100..999;
    it has then set the headers and done nothing else: no status, no
    body, no log record, no sleep. *)
Theorem handler_panics_exactly_on_invalid_status `{Dyn} (api : ApiFormat)
    (order : list (string * any)) (lg : Logger) :
  if valid_codeb (Status (Response api))
  then panicked (handler api order (new_exchange lg)) = false
  else panicked (handler api order (new_exchange lg)) = true
       ∧ calls (handler_run api order lg) = set_calls order
       ∧ logger (handler_run api order lg) = lg
       ∧ clock (handler_run api order lg) = 0.
Proof.
  unfold handler_run. destruct (valid_codeb _) eqn:Hv.
  - apply valid_codeb_spec in Hv. by rewrite handler_returns.
  - rewrite handler_panics; [done|].
    intros Hvalid. apply valid_codeb_spec in Hvalid. congruence.
Qed.

Lemma wrap64_le_max (z : Z) : wrap64 z ≤ int64_max.
Proof.
  unfold wrap64, int64_max.
  pose proof (Z.mod_pos_bound (z + 2 ^ 63) (2 ^ 64)). lia.
Qed.

(** X4: whatever the delay (an int64), the handler never sleeps longer
    than the configured number of milliseconds: overflow can only cut the
    sleep short. *)
Theorem handler_never_oversleeps `{Dyn} (api : ApiFormat)
    (order : list (string * any)) (lg : Logger) :
  int64_min ≤ Delay api ≤ int64_max →
  0 ≤ clock (handler_run api order lg) ≤ Z.max 0 (Delay api * time_Millisecond).
Proof.
  intros Hd. unfold handler_run.
  destruct (decide (100 ≤ Status (Response api) ≤ 999)) as [Hv|Hv].
  - rewrite handler_returns by done. simpl.
    destruct (0 <? Delay api) eqn:Hpos; [|lia].
    apply Z.ltb_lt in Hpos. unfold milliseconds.
    rewrite (wrap64_small (Delay api)) by done.
    destruct (decide (Delay api * time_Millisecond ≤ int64_max)) as [Hfit|Hover].
    + rewrite wrap64_small; [lia|]. unfold time_Millisecond, int64_min in *. lia.
    + pose proof (wrap64_le_max (Delay api * time_Millisecond)). lia.
  - rewrite handler_panics by done. simpl. lia.
Qed.

Lemma handler_never_oversleeps_witness :
  int64_min ≤ Delay Examples.slow ≤ int64_max
  ∧ 0 ≤ clock (handler_run Examples.slow
                 (map_to_list (Headers (Response Examples.slow))) default_logger)
      ≤ Z.max 0 (Delay Examples.slow * time_Millisecond).
Proof.
  assert (Hd : int64_min ≤ Delay Examples.slow ≤ int64_max)
    by (unfold int64_min, int64_max; simpl; lia).
  split; [exact Hd|].
  exact (handler_never_oversleeps Examples.slow _ default_logger Hd).
Defined.

(** ** Headers *)

Lemma set_headers_last `{Dyn} (order : list (string * any)) (c : string) :
  set_headers order ∅ !! c
  = (λ kv, [fmt_Sprint kv.2])
      <$> last (filter (λ kv, CanonicalMIMEHeaderKey kv.1 = c) order).
Proof.
  induction order as [|kv order IH] using rev_ind; [done|].
  rewrite set_headers_snoc, filter_app.
  destruct (decide (CanonicalMIMEHeaderKey kv.1 = c)) as [Heq|Hne].
  - rewrite filter_cons_True by done. rewrite filter_nil, last_snoc.
    rewrite Heq. by rewrite lookup_insert_eq.
  - rewrite filter_cons_False by done. rewrite filter_nil, app_nil_r.
    by rewrite lookup_insert_ne.
Qed.

(** X5: whatever the status, a header read back under any spelling of
    its name holds the string form of the value the loop set last among
    the configured names with the same canonical form; a name configured
    under no spelling is absent. *)
Theorem last_header_wins `{Dyn} (api : ApiFormat) (order : list (string * any))
    (lg : Logger) (k : string) :
  Header_Get (Header (handler_run api order lg)) k
  = (λ kv, fmt_Sprint kv.2)
      <$> last (filter (λ kv, CanonicalMIMEHeaderKey kv.1 = CanonicalMIMEHeaderKey k)
                  order).
Proof.
  assert (Hh : Header (handler_run api order lg) = set_headers order ∅).
  { unfold handler_run.
    destruct (decide (100 ≤ Status (Response api) ≤ 999)) as [Hv|Hv].
    - by rewrite handler_returns.
    - by rewrite handler_panics. }
  unfold Header_Get. rewrite Hh, set_headers_last.
  by destruct (last _).
Qed.

(** ** A configuration without duplicates *)

(** The address built from the pointer names no port. *)
Lemma bad_verb_address_has_no_port (ptr : N) :
  net_Listen (Sprintf_colon_s_ptr ptr) = None.
Proof.
  unfold net_Listen, Sprintf_colon_s_ptr.
  change (":" +:+ "%!s(" +:+ "*int=0x" +:+ hex ptr +:+ ")")
    with (String ":" ("%!s(" +:+ "*int=0x" +:+ hex ptr +:+ ")")).
  simpl port_text. rewrite port_text_no_colon; [done|].
  by rewrite !contains_byte_app, hex_no_colon.
Qed.

(** On literal routes the pattern determines the key. *)
Lemma pattern_of_key `{Dyn} (a b : ApiFormat) :
  literal_route a = true → literal_route b = true →
  pattern_of a = pattern_of b → key_of a = key_of b.
Proof.
  intros Ha Hb Heq. apply parsePattern_literal in Ha, Hb.
  unfold key_of. congruence.
Qed.

Lemma literal_keys_patterns `{Dyn} (apis : list ApiFormat) :
  forallb literal_route apis = true →
  NoDup (key_of <$> apis) → NoDup (pattern_of <$> apis).
Proof.
  intros Hlit Hkeys. apply NoDup_fmap_2_strong.
  - intros a b Ha Hb Heq. apply (NoDup_fmap_elem key_of apis); [done..|].
    apply pattern_of_key; [by eapply literal_elem..|done].
  - by apply NoDup_fmap_1 in Hkeys.
Qed.

Lemma register_fresh_completes `{Dyn} (apis : list ApiFormat) (p : Process) :
  NoDup (patterns (DefaultServeMux p) ++ (pattern_of <$> apis)) →
  (register apis p).2 = None.
Proof.
  revert p. induction apis as [|api apis IH]; intros p Hnd; simpl; [done|].
  unfold http_HandleFunc.
  destruct (decide (pattern_of api ∈ patterns (DefaultServeMux p))) as [Hin|Hfresh].
  - exfalso. apply NoDup_app in Hnd as (_ & Hdisj & _).
    apply (Hdisj _ Hin). rewrite fmap_cons. left.
  - apply IH. simpl. unfold patterns. rewrite fmap_app. simpl.
    rewrite <- app_assoc. exact Hnd.
Qed.

Lemma register_log `{Dyn} (apis : list ApiFormat) (p p' : Process) :
  register apis p = (p', None) →
  level_rank (min_level (slog_default p)) ≤ 0 →
  records (slog_default p')
  = records (slog_default p) ++ (registered_record <$> apis).
Proof.
  revert p. induction apis as [|api apis IH]; intros p Hreg Hlvl; simpl in Hreg.
  - injection Hreg as <-. by rewrite app_nil_r.
  - destruct (http_HandleFunc _ _ _) as [|mux]; [discriminate|].
    apply IH in Hreg; simpl in *.
    + rewrite Hreg. unfold slog_emit.
      rewrite (proj2 (Z.leb_le _ _)) by exact Hlvl.
      simpl. by rewrite <- app_assoc.
    + by rewrite slog_emit_min_level.
Qed.

(** X6: when the file is read and the decoded definitions are literal
    routes with pairwise distinct (method, url) keys, [main] registers
    every definition, in order, each under its own pattern; it logs one
    "Registered endpoint" per definition, in order, then "Starting
    server" with the address of the port variable; and it returns with
    the listener's error. *)
Theorem main_registers_all `{Dyn} (w : World) (fl : Flags) (file : string) :
  os_ReadFile w (mock_data fl) = (file, None) →
  forallb literal_route (json_Unmarshal w file).1 = true →
  NoDup (key_of <$> (json_Unmarshal w file).1) →
  DefaultServeMux (proc (main w fl)) = entry <$> (json_Unmarshal w file).1
  ∧ records (slog_default (proc (main w fl)))
    = (registered_record <$> (json_Unmarshal w file).1) ++ [starting_record w]
  ∧ (∃ err, exit (main w fl) = ExitReturn err)
  ∧ listen_addr (main w fl) = Some (Sprintf_colon_s_ptr (port_addr w)).
Proof.
  intros Hread Hlit Hkeys. unfold main. rewrite Hread. simpl.
  set (lg := if debug fl then _ else _).
  assert (Hlvl : level_rank (min_level (slog_default (initial_process lg))) ≤ 0)
    by (unfold lg; destruct (debug fl); simpl; lia).
  pose proof (register_fresh_completes (json_Unmarshal w file).1 (initial_process lg))
    as Hnone.
  destruct (register _ _) as [p r] eqn:Hreg. simpl in Hnone.
  rewrite Hnone in * by (simpl; by apply literal_keys_patterns). simpl.
  pose proof (register_completes _ _ _ Hreg) as [Hmux _].
  pose proof (register_log _ _ _ Hreg Hlvl) as Hlog.
  pose proof (register_min_level (json_Unmarshal w file).1 (initial_process lg)) as Hmin.
  rewrite Hreg in Hmin. simpl in Hmin, Hmux, Hlog.
  split_and!.
  - done.
  - unfold slog_emit. rewrite Hmin.
    rewrite (proj2 (Z.leb_le _ _)) by exact Hlvl.
    simpl. rewrite Hlog.
    replace (records lg) with (@nil LogRecord) by (unfold lg; by destruct (debug fl)).
    done.
  - rewrite bad_verb_address_has_no_port. by eexists.
  - done.
Qed.

Lemma ping_pong_keys : NoDup (key_of <$> [Examples.ping; MoreExamples.pong]).
Proof.
  apply NoDup_cons. split; [|apply NoDup_singleton].
  intros Hin. apply list_elem_of_singleton in Hin. discriminate.
Defined.

Lemma main_registers_all_witness :
  DefaultServeMux (proc (main (Examples.world [Examples.ping; MoreExamples.pong] None)
                           Examples.flags))
  = [entry Examples.ping; entry MoreExamples.pong]
  ∧ records (slog_default (proc (main (Examples.world [Examples.ping; MoreExamples.pong]
                                         None) Examples.flags)))
    = [registered_record Examples.ping; registered_record MoreExamples.pong;
       starting_record (Examples.world [Examples.ping; MoreExamples.pong] None)]
  ∧ (∃ err, exit (main (Examples.world [Examples.ping; MoreExamples.pong] None)
                    Examples.flags) = ExitReturn err)
  ∧ listen_addr (main (Examples.world [Examples.ping; MoreExamples.pong] None)
                   Examples.flags)
    = Some (Sprintf_colon_s_ptr 824633811096).
Proof.
  exact (main_registers_all (Examples.world [Examples.ping; MoreExamples.pong] None)
           Examples.flags "(configuration bytes)" eq_refl eq_refl ping_pong_keys).
Defined.

(** X7: on literal routes, [main] panics exactly when the file cannot be
    read or two decoded definitions share a (method, url) key. *)
Theorem main_panics_iff `{Dyn} (w : World) (fl : Flags) :
  forallb literal_route (json_Unmarshal w (os_ReadFile w (mock_data fl)).1).1 = true →
  (∃ msg, exit (main w fl) = ExitPanic msg)
  ↔ (os_ReadFile w (mock_data fl)).2 ≠ None
    ∨ ¬ NoDup (key_of <$> (json_Unmarshal w (os_ReadFile w (mock_data fl)).1).1).
Proof.
  intros Hlit. destruct (os_ReadFile w (mock_data fl)) as [file [err|]] eqn:Hread;
    simpl in *.
  - split; [by left|]. intros _.
    exists err. unfold main. by rewrite Hread.
  - split.
    + intros [msg Hexit]. right. intros Hkeys.
      unfold main in Hexit. rewrite Hread in Hexit. simpl in Hexit.
      match type of Hexit with
      | context [register ?l ?q] =>
          pose proof (register_fresh_completes l q) as Hnone;
          destruct (register l q) as [p r]
      end.
      simpl in Hnone. rewrite Hnone in Hexit
        by (simpl; by apply literal_keys_patterns).
      simpl in Hexit. by destruct (net_Listen _).
    + intros [Hne|Hdup]; [done|].
      unfold main. rewrite Hread. simpl.
      destruct (register _ _) as [p [msg|]] eqn:Hreg; [by eexists|].
      exfalso. apply Hdup.
      apply register_completes in Hreg as [Hmux Hnd]. simpl in Hmux.
      assert (Hpat : NoDup (pattern_of <$> (json_Unmarshal w file).1)).
      { rewrite <- patterns_entries, <- Hmux. apply Hnd. constructor. }
      apply NoDup_fmap_1 in Hpat. apply NoDup_fmap_2_strong; [|done].
      intros a b Ha Hb Hkey.
      apply (NoDup_fmap_elem pattern_of (json_Unmarshal w file).1); [|done..|].
      * rewrite <- patterns_entries, <- Hmux. apply Hnd. constructor.
      * unfold key_of in Hkey. unfold pattern_of. congruence.
Qed.

Lemma main_panics_iff_witness :
  (∃ msg, exit (main (Examples.world [Examples.ping; Examples.ping_again] None)
                  Examples.flags) = ExitPanic msg)
  ↔ (os_ReadFile (Examples.world [Examples.ping; Examples.ping_again] None)
       (mock_data Examples.flags)).2 ≠ None
    ∨ ¬ NoDup (key_of <$> [Examples.ping; Examples.ping_again]).
Proof.
  exact (main_panics_iff (Examples.world [Examples.ping; Examples.ping_again] None)
           Examples.flags eq_refl).
Defined.

(** ** Which endpoint serves a request *)



(** ** The iteration order of the header map *)




